(** * Key grammar, identifier codec and repository operations of the
      Redis-backed data repository (datarepository.redis.go).

    Go strings are byte strings: they are modelled as [string] (a list of
    8-bit [ascii]), [len] as [String.length].  The methods of
    [RedisRepository] read only its [prefix] and [separator] fields; the
    [client] field is modelled by the effect signature [redis.Cmd]. *)

From Stdlib Require Import String Ascii List ZArith Bool Lia PeanoNat.
Import ListNotations.
Open Scope string_scope.

(** ** Constants *)

Definition DefaultKeyPrefix : string := "app".
Definition DefaultKeySeparator : string := ":".
Definition MinKeyLength : nat := 5.
Definition MaxKeyLength : nat := 256.
Definition KeyPartLock : string := "lock".
Definition KeyPartPubSubChannel : string := "channel".

(** ** The [strings] package *)

Module strings.

(** [strings.HasPrefix(s, prefix)]. *)
Definition HasPrefix (s p : string) : bool := String.prefix p s.

(** [strings.Join(elems, sep)]. *)
Definition Join (elems : list string) (sep : string) : string :=
  String.concat sep elems.

(** Splitting around a non-empty separator: the scan goes left to right,
    [skip] counts the bytes of a matched separator still to be dropped, and
    a match is only looked for outside a matched separator (leftmost,
    non-overlapping occurrences, as [genSplit] finds them with [Index]). *)
Fixpoint splitFrom (sep : string) (skip : nat) (s : string) : list string :=
  match s with
  | EmptyString => [EmptyString]
  | String c s' =>
      match skip with
      | S k => splitFrom sep k s'
      | O =>
          if String.prefix sep s
          then EmptyString :: splitFrom sep (String.length sep - 1) s'
          else match splitFrom sep 0 s' with
               | p :: ps => String c p :: ps
               | [] => [String c EmptyString]
               end
      end
  end.

(** With an empty separator [strings.Split] explodes the string into its
    UTF-8 sequences; on ASCII text, the only text that reaches [Split] in
    this file (it is called after the character-class check), these are
    the single bytes. *)
Fixpoint explode (s : string) : list string :=
  match s with
  | EmptyString => []
  | String c s' => String c EmptyString :: explode s'
  end.

(** [strings.Split(s, sep)]. *)
Definition Split (s sep : string) : list string :=
  match sep with
  | EmptyString => explode s
  | String _ _ => splitFrom sep 0 s
  end.

End strings.

(** ** The [regexp] package, as far as the two patterns need it *)

Module regexp.

(** A character class is a list of inclusive byte ranges. *)
Definition class := list (ascii * ascii).

Inductive Regexp : Type :=
| NoMatch : Regexp
| Empty : Regexp
| Class : class -> Regexp
| Cat : Regexp -> Regexp -> Regexp
| Alt : Regexp -> Regexp -> Regexp
| Star : Regexp -> Regexp.

Definition Plus (r : Regexp) : Regexp := Cat r (Star r).

Definition inRange (c : ascii) (rg : ascii * ascii) : bool :=
  (nat_of_ascii (fst rg) <=? nat_of_ascii c)%nat
  && (nat_of_ascii c <=? nat_of_ascii (snd rg))%nat.

Definition inClass (cl : class) (c : ascii) : bool :=
  existsb (inRange c) cl.

Fixpoint nullable (r : Regexp) : bool :=
  match r with
  | NoMatch => false
  | Empty => true
  | Class _ => false
  | Cat r1 r2 => nullable r1 && nullable r2
  | Alt r1 r2 => nullable r1 || nullable r2
  | Star _ => true
  end.

(** Brzozowski derivative of [r] by the byte [c]. *)
Fixpoint deriv (r : Regexp) (c : ascii) : Regexp :=
  match r with
  | NoMatch => NoMatch
  | Empty => NoMatch
  | Class cl => if inClass cl c then Empty else NoMatch
  | Cat r1 r2 =>
      if nullable r1
      then Alt (Cat (deriv r1 c) r2) (deriv r2 c)
      else Cat (deriv r1 c) r2
  | Alt r1 r2 => Alt (deriv r1 c) (deriv r2 c)
  | Star r1 => Cat (deriv r1 c) (Star r1)
  end.

(** [re.MatchString(s)] for a pattern anchored with [^] and [$] at its two
    ends: the whole of [s] has to match.  Both patterns of the file are
    anchored this way, and Go's [$] without the [m] flag is the end of
    the text.  The classes are ASCII, so a byte above 127 is never
    matched, whichever rune it belongs to. *)
Fixpoint MatchString (r : Regexp) (s : string) : bool :=
  match s with
  | EmptyString => nullable r
  | String c s' => MatchString (deriv r c) s'
  end.

End regexp.

Import regexp.

(** [^[a-zA-Z0-9_:.-]+$] *)
Definition validKeyClass : class :=
  [("a", "z"); ("A", "Z"); ("0", "9");
   ("_", "_"); (":", ":"); (".", "."); ("-", "-")]%char.
Definition validKeyRegex : Regexp := Plus (Class validKeyClass).

(** [^[a-zA-Z][a-zA-Z0-9_]*$] *)
Definition entityPrefixHead : class := [("a", "z"); ("A", "Z")]%char.
Definition entityPrefixTail : class :=
  [("a", "z"); ("A", "Z"); ("0", "9"); ("_", "_")]%char.
Definition entityPrefixRegex : Regexp :=
  Cat (Class entityPrefixHead) (Star (Class entityPrefixTail)).

(** ** The store client *)

(** Go [interface{}] values, restricted to the dynamic types the file
    inspects or builds. *)
#[local] Set Warnings "-register-all".
Inductive any : Type :=
| AnyInt64 (n : Z)
| AnyInt (n : Z)
| AnyString (s : string)
| AnySlice (l : list any)
| AnyOther.

Module redis.

(** Errors reported by the go-redis client: [redis.Nil] or anything else
    (network, timeout, server error), identified by its text. *)
Inductive Error : Type :=
| Nil
| ClientError (text : string).

Definition isNil (e : Error) : bool :=
  match e with Nil => true | ClientError _ => false end.

(** The methods of [redis.UniversalClient] the repository calls, indexed
    by what the call hands back ([.Result()] gives a value and an error,
    [.Err()] the error alone). *)
Inductive Cmd : Type -> Type :=
| Exists (key : string) : Cmd (Z * option Error)
| JSONSet (key path : string) (value : any) : Cmd (option Error)
| JSONGet (key path : string) : Cmd (string * option Error)
| Del (key : string) : Cmd (Z * option Error)
| Keys (pattern : string) : Cmd (list string * option Error)
| Do (args : list any) : Cmd (any * option Error)
| SetNX (key : string) (value : any) (ttl : Z) : Cmd (bool * option Error)
| Publish (channel : string) (message : any) : Cmd (option Error)
| Ping : Cmd (option Error)
| Close : Cmd (option Error).

End redis.

(** ** Errors *)

(** The package-level [errors.New] values.  The last four are declared in
    another file of the package; only their identity matters here. *)
Inductive sentinel : Type :=
| ErrEmptyKeyPart
| ErrInvalidKeyFormat
| ErrInvalidKeyLength
| ErrInvalidKeyPrefix
| ErrInvalidKeySuffix
| ErrInvalidKeyChars
| ErrInvalidEntityPrefix
| ErrUnsupportedIdentifier
| ErrInvalidIdentifier
| ErrOperationFailed
| ErrAlreadyExists
| ErrNotFound.

Definition sentinel_eqb (a b : sentinel) : bool :=
  match a, b with
  | ErrEmptyKeyPart, ErrEmptyKeyPart
  | ErrInvalidKeyFormat, ErrInvalidKeyFormat
  | ErrInvalidKeyLength, ErrInvalidKeyLength
  | ErrInvalidKeyPrefix, ErrInvalidKeyPrefix
  | ErrInvalidKeySuffix, ErrInvalidKeySuffix
  | ErrInvalidKeyChars, ErrInvalidKeyChars
  | ErrInvalidEntityPrefix, ErrInvalidEntityPrefix
  | ErrUnsupportedIdentifier, ErrUnsupportedIdentifier
  | ErrInvalidIdentifier, ErrInvalidIdentifier
  | ErrOperationFailed, ErrOperationFailed
  | ErrAlreadyExists, ErrAlreadyExists
  | ErrNotFound, ErrNotFound => true
  | _, _ => false
  end.

(** Go [error] values (a [nil] error is [None] of [option error]). *)
Inductive error : Type :=
| New (s : sentinel)
| Client (e : redis.Error)
| Json (text : string)
| Errorf (text : string)
| Errorf_w (w : error) (text : string)
| Errorf_w_v (w : error) (v : error).

(** [errors.Is(e, target)] for a sentinel target: [%w] operands are on the
    unwrap chain, [%v] operands are only formatted into the text. *)
Fixpoint errorsIs (e : error) (target : sentinel) : bool :=
  match e with
  | New s => sentinel_eqb s target
  | Client _ => false
  | Json _ => false
  | Errorf _ => false
  | Errorf_w w _ => errorsIs w target
  | Errorf_w_v w _ => errorsIs w target
  end.

(** ** The repository handle *)

Record RedisConfig : Type := {
  Addrs : list string;
  MasterName : string;
  SentinelUsername : string;
  SentinelPassword : string;
  Username : string;
  Password : string;
  DB : Z;
  Mode : string;
  KeyPrefix : string;
  KeySeparator : string
}.

(** The [Config] interface: a [RedisConfig] or a value of another type. *)
Inductive Config : Type :=
| ConfigRedis (c : RedisConfig)
| ConfigOther.

Record RedisRepository : Type := {
  prefix : string;
  separator : string
}.

Definition NewRedisRepository (config : Config) : RedisRepository + error :=
  match config with
  | ConfigOther => inr (Errorf "invalid config type for Redis repository")
  | ConfigRedis redisConfig =>
      let prefix :=
        if String.eqb (KeyPrefix redisConfig) "" then DefaultKeyPrefix
        else KeyPrefix redisConfig in
      let separator :=
        if String.eqb (KeySeparator redisConfig) "" then DefaultKeySeparator
        else KeySeparator redisConfig in
      inl {| prefix := prefix; separator := separator |}
  end.

(** ** Key grammar and validator *)

Definition validateKey (r : RedisRepository) (key : string) : option error :=
  if (String.length key <? MinKeyLength)%nat
     || (MaxKeyLength <? String.length key)%nat
  then Some (Errorf_w (New ErrInvalidKeyLength)
               ": key length must be between 5 and 256 characters")
  else if negb (MatchString validKeyRegex key)
  then Some (Errorf_w (New ErrInvalidKeyChars)
               ": key must contain only alphanumeric characters, underscores, colons, dots, and hyphens")
  else if negb (strings.HasPrefix key (prefix r ++ separator r))
  then Some (Errorf_w (New ErrInvalidKeyPrefix)
               (": key must start with " ++ prefix r ++ separator r))
  else
    let parts := strings.Split key (separator r) in
    (* [parts[1]] is only read when [len(parts) >= 2] *)
    if (List.length parts <? 2)%nat
       || String.eqb (nth 1 parts "") ""
    then Some (Errorf_w (New ErrInvalidKeySuffix)
                 ": key must have at least one non-empty part after the prefix")
    else if existsb (fun part => String.eqb part "") parts
    then Some (New ErrEmptyKeyPart)
    else None.

Definition validateEntityPrefix (r : RedisRepository) (entityPrefix : string)
  : option error :=
  if negb (MatchString entityPrefixRegex entityPrefix)
  then Some (New ErrInvalidEntityPrefix)
  else None.

(** ** Identifier codec *)

(** The [EntityIdentifier] interface: the two identifier types the
    repository supports, and any other implementation. *)
Inductive EntityIdentifier : Type :=
| RedisIdentifier (EntityPrefix ID : string)
| SimpleIdentifier (s : string)
| OtherIdentifier.

(** A Go result pair [(v, err)] of which every [return] statement fills
    exactly one component is a sum: [inl v] for [(v, nil)], [inr err] for
    [(zero, err)]. *)
Definition createKey (r : RedisRepository) (parts : list string)
  : string + error :=
  let allParts := prefix r :: parts in
  let key := strings.Join allParts (separator r) in
  match validateKey r key with
  | Some err => inr err
  | None => inl key
  end.

(** [strings.Split(key, r.separator)[1:]]: the slice expression is in range
    because [Split] returns at least one element for a non-empty string
    (lemma [Split_not_nil]). *)
Definition parseKey (r : RedisRepository) (key : string)
  : list string + error :=
  match validateKey r key with
  | Some err => inr err
  | None => inl (skipn 1 (strings.Split key (separator r)))
  end.

Definition identifierToKey (r : RedisRepository) (identifier : EntityIdentifier)
  : string + error :=
  match identifier with
  | RedisIdentifier EntityPrefix ID =>
      match validateEntityPrefix r EntityPrefix with
      | Some err => inr err
      | None => createKey r [EntityPrefix; ID]
      end
  | SimpleIdentifier id => createKey r [id]
  | OtherIdentifier => inr (New ErrUnsupportedIdentifier)
  end.

Definition keyToIdentifier (r : RedisRepository) (key : string)
  : EntityIdentifier + error :=
  match parseKey r key with
  | inr err => inr err
  | inl parts =>
      if (2 <=? List.length parts)%nat
      then inl (RedisIdentifier (nth 0 parts "") (nth 1 parts ""))
      else inl (SimpleIdentifier (strings.Join parts (separator r)))
  end.

(** ** Programs over the store client *)

(** A repository operation is a finite tree of client calls: it returns,
    calls the client and goes on with what the call handed back, or stops
    with a run-time panic. *)
Inductive prog (A : Type) : Type :=
| Ret (a : A)
| Call {R : Type} (c : redis.Cmd R) (k : R -> prog A)
| Panic (msg : string).

Arguments Ret {A} a.
Arguments Call {A R} c k.
Arguments Panic {A} msg.

Fixpoint mapProg {A B : Type} (f : A -> B) (p : prog A) : prog B :=
  match p with
  | Ret a => Ret (f a)
  | Call c k => Call c (fun x => mapProg f (k x))
  | Panic msg => Panic msg
  end.

(** [fmt.Errorf("%w: %v", ErrOperationFailed, err)] *)
Definition operationFailed (err : redis.Error) : error :=
  Errorf_w_v (New ErrOperationFailed) (Client err).

(** [fmt.Errorf("%w: %v", ErrInvalidIdentifier, err)] *)
Definition invalidIdentifier (err : error) : error :=
  Errorf_w_v (New ErrInvalidIdentifier) err.

(** The error of a [.Err()] call handed on as it is. *)
Definition asError (err : option redis.Error) : option error :=
  option_map Client err.

(** ** Repository operations *)

Definition Create (r : RedisRepository) (identifier : EntityIdentifier)
  (value : any) : prog (option error) :=
  match identifierToKey r identifier with
  | inr err => Ret (Some (invalidIdentifier err))
  | inl key =>
      Call (redis.Exists key) (fun '(exists_, err) =>
        match err with
        | Some err => Ret (Some (operationFailed err))
        | None =>
            if (exists_ =? 1)%Z then Ret (Some (New ErrAlreadyExists))
            else Call (redis.JSONSet key "$" value) (fun err =>
                   Ret (asError err))
        end)
  end.

(** [value] is the caller's target; what [json.Unmarshal] makes of the
    fetched text for that target is the function [unmarshal]. *)
Definition Read (r : RedisRepository) (identifier : EntityIdentifier)
  (unmarshal : string -> option error) : prog (option error) :=
  match identifierToKey r identifier with
  | inr err => Ret (Some (invalidIdentifier err))
  | inl key =>
      Call (redis.JSONGet key "$") (fun '(data, err) =>
        match err with
        | Some err =>
            if redis.isNil err then Ret (Some (New ErrNotFound))
            else Ret (Some (operationFailed err))
        | None => Ret (unmarshal data)
        end)
  end.

Definition Update (r : RedisRepository) (identifier : EntityIdentifier)
  (value : any) : prog (option error) :=
  match identifierToKey r identifier with
  | inr err => Ret (Some (invalidIdentifier err))
  | inl key =>
      Call (redis.Exists key) (fun '(exists_, err) =>
        match err with
        | Some err => Ret (Some (operationFailed err))
        | None =>
            if (exists_ =? 0)%Z then Ret (Some (New ErrNotFound))
            else Call (redis.JSONSet key "$" value) (fun err =>
                   Ret (asError err))
        end)
  end.

Definition Delete (r : RedisRepository) (identifier : EntityIdentifier)
  : prog (option error) :=
  match identifierToKey r identifier with
  | inr err => Ret (Some (invalidIdentifier err))
  | inl key =>
      Call (redis.Del key) (fun '(result, err) =>
        match err with
        | Some err => Ret (Some (operationFailed err))
        | None =>
            if (result =? 0)%Z then Ret (Some (New ErrNotFound))
            else Ret None
        end)
  end.

(** The body of the decoding loops of [List] and [Search] for one key:
    [continue] leaves [identifiers] as it is. *)
Definition appendDecoded (r : RedisRepository)
  (identifiers : list EntityIdentifier) (key : string)
  : list EntityIdentifier :=
  match validateKey r key with
  | Some _ => identifiers
  | None =>
      match keyToIdentifier r key with
      | inr _ => identifiers
      | inl identifier => (identifiers ++ [identifier])%list
      end
  end.

Definition List (r : RedisRepository) (pattern : EntityIdentifier)
  : prog (list EntityIdentifier + error) :=
  match identifierToKey r pattern with
  | inr err => Ret (inr (invalidIdentifier err))
  | inl patternKey =>
      Call (redis.Keys (patternKey ++ "*")) (fun '(keys, err) =>
        match err with
        | Some err => Ret (inr (operationFailed err))
        | None => Ret (inl (fold_left (appendDecoded r) keys []))
        end)
  end.

(** [for i := 1; i < len(array); i += 2], run on [array[i:]]. *)
Fixpoint searchLoop (r : RedisRepository) (rest : list any)
  (identifiers : list EntityIdentifier) : list EntityIdentifier :=
  match rest with
  | [] => identifiers
  | x :: rest' =>
      let identifiers' :=
        match x with
        | AnyString key => appendDecoded r identifiers key
        | _ => identifiers
        end in
      match rest' with
      | [] => identifiers'
      | _ :: rest'' => searchLoop r rest'' identifiers'
      end
  end.

(** The largest capacity [make([]EntityIdentifier, 0, n)] accepts on a
    64-bit platform: an [EntityIdentifier] is an interface value of 16
    bytes and [makeslice] refuses a slice of more than 2^48 bytes
    ([maxAlloc]), so the limit is 2^44 elements.  Whether an allocation
    within the limit finds the memory it asks for is not modelled. *)
Definition maxSliceCap : Z := 17592186044416.

(** [make([]EntityIdentifier, 0, totalResults)] panics on a negative
    capacity and on a capacity above [maxSliceCap]. *)
Definition Search (r : RedisRepository) (query : string) (offset limit : Z)
  (sortBy sortDir : string) : prog (list EntityIdentifier + error) :=
  let args :=
    [AnyString "FT.SEARCH"; AnyString (prefix r); AnyString query;
     AnyString "LIMIT"; AnyInt offset; AnyInt limit;
     AnyString "SORTBY"; AnyString sortBy; AnyString sortDir] in
  Call (redis.Do args) (fun '(res, err) =>
    match err with
    | Some err => Ret (inr (operationFailed err))
    | None =>
        match res with
        | AnySlice (first :: rest) =>
            match first with
            | AnyInt64 totalResults =>
                if (totalResults =? 0)%Z then Ret (inl [])
                else if (totalResults <? 0)%Z
                        || (maxSliceCap <? totalResults)%Z
                then Panic "makeslice: cap out of range"
                else Ret (inl (searchLoop r rest []))
            | _ => Ret (inr (Errorf "unexpected total results format"))
            end
        | _ => Ret (inr (Errorf "unexpected search result format"))
        end
    end).

Definition lockKeyOf (r : RedisRepository) (key : string) : string :=
  key ++ separator r ++ KeyPartLock.

Definition AcquireLock (r : RedisRepository) (identifier : EntityIdentifier)
  (ttl : Z) : prog (bool * option error) :=
  match identifierToKey r identifier with
  | inr err => Ret (false, Some (invalidIdentifier err))
  | inl key =>
      let lockKey := lockKeyOf r key in
      Call (redis.SetNX lockKey (AnyInt 1) ttl) (fun '(acquired, err) =>
        match err with
        | Some err => Ret (false, Some (operationFailed err))
        | None => Ret (acquired, None)
        end)
  end.

Definition ReleaseLock (r : RedisRepository) (identifier : EntityIdentifier)
  : prog (option error) :=
  match identifierToKey r identifier with
  | inr err => Ret (Some (invalidIdentifier err))
  | inl key =>
      let lockKey := lockKeyOf r key in
      Call (redis.Del lockKey) (fun '(result, err) =>
        match err with
        | Some err => Ret (Some (operationFailed err))
        | None =>
            if (result =? 0)%Z then Ret (Some (New ErrNotFound))
            else Ret None
        end)
  end.

Definition Publish (r : RedisRepository) (channel : string) (message : any)
  : prog (option error) :=
  let fullChannel :=
    prefix r ++ separator r ++ KeyPartPubSubChannel ++ separator r ++ channel in
  Call (redis.Publish fullChannel message) (fun err => Ret (asError err)).

Definition Ping (r : RedisRepository) : prog (option error) :=
  Call redis.Ping (fun err => Ret (asError err)).

Definition Close (r : RedisRepository) : prog (option error) :=
  Call redis.Close (fun err => Ret (asError err)).

(** ** Running a program against a store *)

(** A store answers every call from its state [St] and moves to a new
    state. *)
Definition handler (St : Type) : Type :=
  forall R : Type, redis.Cmd R -> St -> R * St.

(** One client call and what it handed back. *)
Inductive entry : Type :=
| Called {R : Type} (c : redis.Cmd R) (x : R).

Record execution (St A : Type) : Type := {
  result : option A;      (* [None]: the program panicked *)
  final : St;
  log : list entry
}.

Arguments result {St A} e.
Arguments final {St A} e.
Arguments log {St A} e.

Fixpoint run {St A : Type} (h : handler St) (p : prog A) (s : St)
  : execution St A :=
  match p with
  | Ret a => {| result := Some a; final := s; log := [] |}
  | Panic _ => {| result := None; final := s; log := [] |}
  | Call c k =>
      let (x, s') := h _ c s in
      let e := run h (k x) s' in
      {| result := result e; final := final e; log := Called c x :: log e |}
  end.

(** * Vocabulary of the properties *)

(** ** The key grammar, in the words of the data model *)

Definition isLetter (c : ascii) : Prop :=
  65 <= nat_of_ascii c <= 90 \/ 97 <= nat_of_ascii c <= 122.

Definition isDigit (c : ascii) : Prop :=
  48 <= nat_of_ascii c <= 57.

(** Alphanumeric, underscore, colon, dot or hyphen. *)
Definition KeyChar (c : ascii) : Prop :=
  isLetter c \/ isDigit c \/
  c = "_"%char \/ c = ":"%char \/ c = "."%char \/ c = "-"%char.

Definition LengthOk (k : string) : Prop :=
  5 <= String.length k <= 256.

Definition CharsOk (k : string) : Prop :=
  Forall KeyChar (list_ascii_of_string k).

Definition PrefixOk (r : RedisRepository) (k : string) : Prop :=
  exists rest, k = prefix r ++ separator r ++ rest.

Definition SuffixOk (r : RedisRepository) (k : string) : Prop :=
  exists p0 p1 ps,
    strings.Split k (separator r) = p0 :: p1 :: ps /\ p1 <> "".

Definition NoEmptyPart (r : RedisRepository) (k : string) : Prop :=
  Forall (fun part => part <> "") (strings.Split k (separator r)).

Definition ValidKey (r : RedisRepository) (k : string) : Prop :=
  LengthOk k /\ CharsOk k /\ PrefixOk r k /\ SuffixOk r k /\ NoEmptyPart r k.

(** [o] is an error of kind [s] and of no other kind. *)
Definition failsWith (o : option error) (s : sentinel) : Prop :=
  exists e, o = Some e /\ forall t, errorsIs e t = true <-> t = s.

Definition defaultRepository : RedisRepository :=
  {| prefix := DefaultKeyPrefix; separator := DefaultKeySeparator |}.

Ltac only_kind :=
  let t := fresh "t" in
  intros t; destruct t; simpl; split; intros; (reflexivity || discriminate).

(** ** Round trips *)

(** [strings.Contains(s, sub)], as a proposition. *)
Definition Contains (s sub : string) : Prop :=
  exists a b, s = a ++ sub ++ b.

Definition SeparatorFree (r : RedisRepository) (s : string) : Prop :=
  ~ Contains s (separator r).

(** The parts of an identifier contain no separator. *)
Definition PartsSeparatorFree (r : RedisRepository) (id : EntityIdentifier)
  : Prop :=
  match id with
  | RedisIdentifier EntityPrefix ID =>
      SeparatorFree r EntityPrefix /\ SeparatorFree r ID
  | SimpleIdentifier s => SeparatorFree r s
  | OtherIdentifier => True
  end.

(** Whenever [identifierToKey] renders [id], [keyToIdentifier] gives [id]
    back from the key. *)
Definition RoundTrips (r : RedisRepository) (id : EntityIdentifier) : Prop :=
  forall key, identifierToKey r id = inl key -> keyToIdentifier r key = inl id.

(** A repository whose configured prefix contains the separator. *)
Definition nestedPrefixConfig : RedisConfig :=
  {| Addrs := []; MasterName := ""; SentinelUsername := "";
     SentinelPassword := ""; Username := ""; Password := ""; DB := 0%Z;
     Mode := ""; KeyPrefix := "a:b"; KeySeparator := "" |}.

Definition nestedPrefixRepository : RedisRepository :=
  {| prefix := "a:b"; separator := ":" |}.

Fixpoint replicate (n : nat) (c : ascii) : string :=
  match n with
  | O => EmptyString
  | S n' => String c (replicate n' c)
  end.

(** ** Stores to run the operations against *)

(** A store that gives the same answer to every call of a method. *)
Record answers : Type := {
  onExists : Z * option redis.Error;
  onJSONSet : option redis.Error;
  onJSONGet : string * option redis.Error;
  onDel : Z * option redis.Error;
  onKeys : list string * option redis.Error;
  onDo : any * option redis.Error;
  onSetNX : bool * option redis.Error;
  onPublish : option redis.Error;
  onPing : option redis.Error;
  onClose : option redis.Error
}.

Definition scripted (a : answers) : handler unit :=
  fun R c s =>
    (match c in redis.Cmd R return R with
     | redis.Exists _ => onExists a
     | redis.JSONSet _ _ _ => onJSONSet a
     | redis.JSONGet _ _ => onJSONGet a
     | redis.Del _ => onDel a
     | redis.Keys _ => onKeys a
     | redis.Do _ => onDo a
     | redis.SetNX _ _ _ => onSetNX a
     | redis.Publish _ _ => onPublish a
     | redis.Ping => onPing a
     | redis.Close => onClose a
     end, s).

(** A store in which every call succeeds; nothing exists in it. *)
Definition quiet : answers :=
  {| onExists := (0%Z, None); onJSONSet := None; onJSONGet := ("{}", None);
     onDel := (0%Z, None); onKeys := ([], None);
     onDo := (AnySlice [AnyInt64 0], None); onSetNX := (true, None);
     onPublish := None; onPing := None; onClose := None |}.

(** The methods of the client. *)
Inductive primitive : Type :=
| PExists | PJSONSet | PJSONGet | PDel | PKeys | PDo | PSetNX
| PPublish | PPing | PClose.

Definition primitiveOf (en : entry) : primitive :=
  match en with
  | Called c _ =>
      match c with
      | redis.Exists _ => PExists
      | redis.JSONSet _ _ _ => PJSONSet
      | redis.JSONGet _ _ => PJSONGet
      | redis.Del _ => PDel
      | redis.Keys _ => PKeys
      | redis.Do _ => PDo
      | redis.SetNX _ _ _ => PSetNX
      | redis.Publish _ _ => PPublish
      | redis.Ping => PPing
      | redis.Close => PClose
      end
  end.

(** The error a call reported, if any. *)
Definition reported (en : entry) : option redis.Error :=
  match en with
  | Called c x =>
      match c in redis.Cmd R return R -> option redis.Error with
      | redis.Exists _ => fun x => snd x
      | redis.JSONSet _ _ _ => fun x => x
      | redis.JSONGet _ _ => fun x => snd x
      | redis.Del _ => fun x => snd x
      | redis.Keys _ => fun x => snd x
      | redis.Do _ => fun x => snd x
      | redis.SetNX _ _ _ => fun x => snd x
      | redis.Publish _ _ => fun x => x
      | redis.Ping => fun x => x
      | redis.Close => fun x => x
      end x
  end.

(** The calls that change the store. *)
Definition isWrite (en : entry) : bool :=
  match primitiveOf en with
  | PJSONSet | PDel | PSetNX | PPublish => true
  | _ => false
  end.

(** ** Enumerations and operations *)

(** The key passes validation and decoding. *)
Definition decodable (r : RedisRepository) (k : string) : bool :=
  match validateKey r k with
  | Some _ => false
  | None =>
      match keyToIdentifier r k with
      | inl _ => true
      | inr _ => false
      end
  end.

(** [identifiers] are the identifiers decoded from the decodable keys among
    [keys], one for one and in the same order. *)
Definition DecodedFrom (r : RedisRepository) (keys : list string)
  (identifiers : list EntityIdentifier) : Prop :=
  Forall2 (fun k id => keyToIdentifier r k = inl id)
    (filter (decodable r) keys) identifiers.

(** A search envelope [[total, key1, score1, key2, score2, ...]]. *)
Definition envelope (total : Z) (hits : list (string * any)) : any :=
  AnySlice (AnyInt64 total
            :: flat_map (fun hit => [AnyString (fst hit); snd hit]) hits).

(** The arguments of the search command. *)
Definition searchArgs (r : RedisRepository) (query : string)
  (offset limit : Z) (sortBy sortDir : string) : list any :=
  [AnyString "FT.SEARCH"; AnyString (prefix r); AnyString query;
   AnyString "LIMIT"; AnyInt offset; AnyInt limit;
   AnyString "SORTBY"; AnyString sortBy; AnyString sortDir].

(** One malformed key between two well-formed ones. *)
Definition threeKeys : list string := ["app:user:1"; "app::2"; "app:note"].

Definition threeKeysStore : handler unit :=
  scripted {| onExists := (0%Z, None); onJSONSet := None;
              onJSONGet := ("{}", None); onDel := (0%Z, None);
              onKeys := (threeKeys, None);
              onDo := (envelope 3 (map (fun k => (k, AnyString "1")) threeKeys),
                       None);
              onSetNX := (true, None); onPublish := None;
              onPing := None; onClose := None |}.

(** The operations of the repository with their arguments ([Subscribe]
    hands its stream to a goroutine and returns no error of the store). *)
Inductive operation : Type :=
| OpCreate (identifier : EntityIdentifier) (value : any)
| OpRead (identifier : EntityIdentifier) (unmarshal : string -> option error)
| OpUpdate (identifier : EntityIdentifier) (value : any)
| OpDelete (identifier : EntityIdentifier)
| OpList (pattern : EntityIdentifier)
| OpSearch (query : string) (offset limit : Z) (sortBy sortDir : string)
| OpAcquireLock (identifier : EntityIdentifier) (ttl : Z)
| OpReleaseLock (identifier : EntityIdentifier)
| OpPublish (channel : string) (message : any)
| OpPing
| OpClose.

Definition errorOfSum {A : Type} (x : A + error) : option error :=
  match x with
  | inl _ => None
  | inr err => Some err
  end.

(** The operation as a program that returns its error result. *)
Definition exec (r : RedisRepository) (op : operation) : prog (option error) :=
  match op with
  | OpCreate identifier value => Create r identifier value
  | OpRead identifier unmarshal => Read r identifier unmarshal
  | OpUpdate identifier value => Update r identifier value
  | OpDelete identifier => Delete r identifier
  | OpList pattern => mapProg errorOfSum (List r pattern)
  | OpSearch query offset limit sortBy sortDir =>
      mapProg errorOfSum (Search r query offset limit sortBy sortDir)
  | OpAcquireLock identifier ttl => mapProg snd (AcquireLock r identifier ttl)
  | OpReleaseLock identifier => ReleaseLock r identifier
  | OpPublish channel message => Publish r channel message
  | OpPing => Ping r
  | OpClose => Close r
  end.

(** Every error a call of the operation reported comes back wrapped as
    [ErrOperationFailed]. *)
Definition WrapsStoreErrors (r : RedisRepository) (op : operation) : Prop :=
  forall (St : Type) (h : handler St) (s : St) (en : entry) (e : redis.Error),
    In en (log (run h (exec r op) s)) ->
    reported en = Some e ->
    exists err,
      result (run h (exec r op) s) = Some (Some err) /\
      errorsIs err ErrOperationFailed = true.

(** What an operation returns for the error [e] of a call of the
    primitive [p]; nothing is said of [JSONSet]. *)
Definition returnedFor (p : primitive) (e : redis.Error)
  (res : option (option error)) : Prop :=
  match p with
  | PJSONSet => True
  | PPublish | PPing | PClose => res = Some (Some (Client e))
  | PJSONGet =>
      res = Some (Some (if redis.isNil e then New ErrNotFound
                        else operationFailed e))
  | PExists | PDel | PKeys | PDo | PSetNX =>
      res = Some (Some (operationFailed e))
  end.

Ltac run_call h c s :=
  cbn [run mapProg];
  let x := fresh "x" in
  let s' := fresh "s" in
  destruct (h _ c s) as [x s'].

(** A store whose calls all report a refused connection. *)
Definition refused : redis.Error := redis.ClientError "connection refused".

Definition unreachable : answers :=
  {| onExists := (0%Z, Some refused); onJSONSet := Some refused;
     onJSONGet := ("", Some refused); onDel := (0%Z, Some refused);
     onKeys := ([], Some refused); onDo := (AnyOther, Some refused);
     onSetNX := (false, Some refused); onPublish := Some refused;
     onPing := Some refused; onClose := Some refused |}.

(** ** Further vocabulary: identifiers *)

(** A letter, a digit or an underscore. *)
Definition EntityPrefixChar (c : ascii) : Prop :=
  isLetter c \/ isDigit c \/ c = "_"%char.

(** [e] matches the sentinel [s] under [errors.Is] and no other one. *)
Definition OnlyKind (e : error) (s : sentinel) : Prop :=
  forall t, errorsIs e t = true <-> t = s.

(** The texts an identifier is made of. *)
Definition identifierParts (id : EntityIdentifier) : list string :=
  match id with
  | RedisIdentifier EntityPrefix ID => [EntityPrefix; ID]
  | SimpleIdentifier s => [s]
  | OtherIdentifier => []
  end.

(** The identifier whose last text is that of [id] followed by the
    separator and [lock]. *)
Definition lockIdentifier (r : RedisRepository) (id : EntityIdentifier)
  : EntityIdentifier :=
  match id with
  | RedisIdentifier EntityPrefix ID =>
      RedisIdentifier EntityPrefix (ID ++ separator r ++ KeyPartLock)
  | SimpleIdentifier s => SimpleIdentifier (s ++ separator r ++ KeyPartLock)
  | OtherIdentifier => OtherIdentifier
  end.

(** ** Further vocabulary: operations *)

(** The identifier an operation is called with, if it takes one. *)
Definition identifierOf (op : operation) : option EntityIdentifier :=
  match op with
  | OpCreate identifier _ | OpRead identifier _ | OpUpdate identifier _
  | OpDelete identifier | OpList identifier
  | OpAcquireLock identifier _ | OpReleaseLock identifier => Some identifier
  | OpSearch _ _ _ _ _ | OpPublish _ _ | OpPing | OpClose => None
  end.

(** The four document operations. *)
Definition isCRUD (op : operation) : bool :=
  match op with
  | OpCreate _ _ | OpRead _ _ | OpUpdate _ _ | OpDelete _ => true
  | _ => false
  end.

(** The operations that only look things up. *)
Definition readOnly (op : operation) : bool :=
  match op with
  | OpRead _ _ | OpList _ | OpSearch _ _ _ _ _ | OpPing | OpClose => true
  | _ => false
  end.

(** The key a call is about, for the calls that are about one key. *)
Definition entryKey (en : entry) : option string :=
  match en with
  | Called c _ =>
      match c with
      | redis.Exists key => Some key
      | redis.JSONSet key _ _ => Some key
      | redis.JSONGet key _ => Some key
      | redis.Del key => Some key
      | redis.SetNX key _ _ => Some key
      | _ => None
      end
  end.

(** The strings at the positions the loop of [Search] visits: every other
    element, starting with the first. *)
Fixpoint visitedKeys (rest : list any) : list string :=
  match rest with
  | [] => []
  | x :: rest' =>
      (match x with AnyString key => [key] | _ => [] end
       ++ match rest' with
          | [] => []
          | _ :: rest'' => visitedKeys rest''
          end)%list
  end.

(** [func (ri RedisIdentifier) String() string]: the colon is written out
    in the source, whatever the separator of the repository. *)
Definition RedisIdentifier_String (EntityPrefix ID : string) : string :=
  EntityPrefix ++ ":" ++ ID.

(** Runs a program call by call, by cases on what the store answers. *)
Ltac run_all h :=
  repeat (cbn [run mapProg result log final];
          match goal with
          | |- context [h ?R ?c ?s] => destruct (h R c s) as [? ?]
          | |- context [match ?x with _ => _ end] => destruct x
          end).

(** ** Vocabulary of the revised statements *)

(** [s] without its first [n] bytes. *)
Fixpoint dropBytes (n : nat) (s : string) : string :=
  match n, s with
  | O, _ => s
  | S n', String _ s' => dropBytes n' s'
  | S _, EmptyString => EmptyString
  end.

(** The parts of a key in the words of the codec's contract: the key is
    stripped of the configured prefix and the separator that follows it,
    and what remains is split on the separator. *)
Definition strippedParts (r : RedisRepository) (k : string) : list string :=
  strings.Split
    (dropBytes (String.length (prefix r ++ separator r)) k) (separator r).

(** Decoding by the shape of the stripped parts: two or more give the
    composite identifier of the first two, exactly one gives the simple
    identifier of that part. *)
Definition DecodesByShape (r : RedisRepository) (k : string) : Prop :=
  (forall a b more,
      strippedParts r k = a :: b :: more ->
      keyToIdentifier r k = inl (RedisIdentifier a b)) /\
  (forall a,
      strippedParts r k = [a] ->
      keyToIdentifier r k = inl (SimpleIdentifier a)).

(** [Search] returns the identifiers decoded from the keys of every
    envelope the search command answers with. *)
Definition SearchDecodes (r : RedisRepository) : Prop :=
  forall (St : Type) (h : handler St) (s s' : St)
         (query : string) (offset limit : Z) (sortBy sortDir : string)
         (total : Z) (hits : list (string * any)),
    h _ (redis.Do (searchArgs r query offset limit sortBy sortDir)) s
    = ((envelope total hits, None), s') ->
    exists identifiers,
      result (run h (Search r query offset limit sortBy sortDir) s)
      = Some (inl identifiers) /\
      DecodedFrom r (map fst hits) identifiers.

(** A store whose search command always answers with [answer]. *)
Definition searchStore (answer : any) : handler unit :=
  scripted {| onExists := (0%Z, None); onJSONSet := None;
              onJSONGet := ("{}", None); onDel := (0%Z, None);
              onKeys := ([], None); onDo := (answer, None);
              onSetNX := (true, None); onPublish := None;
              onPing := None; onClose := None |}.

(** * Properties *)

(** ** Strings *)

Lemma prefix_app (p s : string) :
  String.prefix p s = true <-> exists rest, s = p ++ rest.
Proof.
  revert s; induction p as [|a p IH]; intros s; simpl.
  - split; [intros _; exists s; reflexivity | destruct s; reflexivity].
  - destruct s as [|b s].
    + split; [discriminate | intros [rest H]; discriminate].
    + simpl. destruct (Ascii.ascii_dec a b) as [->|Hab].
      * rewrite IH. split; intros [rest H]; exists rest.
        -- now rewrite H.
        -- now injection H.
      * split; [discriminate | intros [rest H]; injection H; intros; congruence].
Qed.

Lemma append_assoc (a b c : string) : (a ++ b) ++ c = a ++ b ++ c.
Proof. induction a as [|x a IH]; simpl; [reflexivity | now rewrite IH]. Qed.

Lemma append_empty_r (a : string) : a ++ "" = a.
Proof. induction a as [|x a IH]; simpl; [reflexivity | now rewrite IH]. Qed.

Lemma length_append (a b : string) :
  String.length (a ++ b) = String.length a + String.length b.
Proof. induction a as [|x a IH]; simpl; [reflexivity | now rewrite IH]. Qed.

Lemma eqb_empty (s : string) : String.eqb s "" = true <-> s = "".
Proof. apply String.eqb_eq. Qed.

Lemma string_of_list_ascii_inv (s : string) :
  list_ascii_of_string s = [] -> s = "".
Proof. destruct s; [reflexivity | discriminate]. Qed.

(** ** Regular expressions *)

Lemma MatchString_NoMatch (s : string) : MatchString NoMatch s = false.
Proof. induction s; simpl; auto. Qed.

Lemma MatchString_Alt (r1 r2 : Regexp) (s : string) :
  MatchString (Alt r1 r2) s = MatchString r1 s || MatchString r2 s.
Proof. revert r1 r2; induction s; intros; simpl; auto. Qed.

Lemma MatchString_Cat_NoMatch (r : Regexp) (s : string) :
  MatchString (Cat NoMatch r) s = false.
Proof. induction s; simpl; auto. Qed.

Lemma MatchString_Cat_Empty (r : Regexp) (s : string) :
  MatchString (Cat Empty r) s = MatchString r s.
Proof.
  destruct s; simpl; [reflexivity|].
  now rewrite MatchString_Alt, MatchString_Cat_NoMatch.
Qed.

Lemma MatchString_Cat_Class (cl : class) (r : Regexp) (s : string) :
  MatchString (Cat (Class cl) r) s =
  match s with
  | EmptyString => false
  | String c s' => inClass cl c && MatchString r s'
  end.
Proof.
  destruct s as [|c s]; simpl; [reflexivity|].
  destruct (inClass cl c); simpl.
  - apply MatchString_Cat_Empty.
  - apply MatchString_Cat_NoMatch.
Qed.

Lemma MatchString_Star_Class (cl : class) (s : string) :
  MatchString (Star (Class cl)) s =
  forallb (inClass cl) (list_ascii_of_string s).
Proof.
  induction s as [|c s IH]; simpl; [reflexivity|].
  destruct (inClass cl c); simpl.
  - now rewrite MatchString_Cat_Empty.
  - apply MatchString_Cat_NoMatch.
Qed.

Lemma MatchString_Plus_Class (cl : class) (s : string) :
  MatchString (Plus (Class cl)) s =
  negb (String.eqb s "") && forallb (inClass cl) (list_ascii_of_string s).
Proof.
  unfold Plus. rewrite MatchString_Cat_Class.
  destruct s as [|c s]; simpl; [reflexivity|].
  now rewrite MatchString_Star_Class.
Qed.

Lemma inRange_iff (c lo hi : ascii) :
  inRange c (lo, hi) = true <->
  nat_of_ascii lo <= nat_of_ascii c <= nat_of_ascii hi.
Proof.
  unfold inRange; simpl.
  now rewrite andb_true_iff, !Nat.leb_le.
Qed.

Lemma inRange_single (c x : ascii) : inRange c (x, x) = true <-> c = x.
Proof.
  rewrite inRange_iff. split.
  - intros H. assert (E : nat_of_ascii c = nat_of_ascii x) by lia.
    rewrite <- (ascii_nat_embedding c), <- (ascii_nat_embedding x).
    now rewrite E.
  - intros ->. lia.
Qed.

(** ** The five checks of the validator *)

Lemma inClass_validKeyClass (c : ascii) :
  inClass validKeyClass c = true <-> KeyChar c.
Proof.
  unfold inClass, validKeyClass, KeyChar, isLetter, isDigit.
  cbn [existsb]. rewrite !orb_true_iff, !inRange_single, !inRange_iff.
  change (nat_of_ascii "a") with 97. change (nat_of_ascii "z") with 122.
  change (nat_of_ascii "A") with 65. change (nat_of_ascii "Z") with 90.
  change (nat_of_ascii "0") with 48. change (nat_of_ascii "9") with 57.
  intuition discriminate.
Qed.

Lemma forallb_validKeyClass (k : string) :
  forallb (inClass validKeyClass) (list_ascii_of_string k) = true <->
  CharsOk k.
Proof.
  unfold CharsOk. rewrite forallb_forall, Forall_forall.
  split; intros H c Hc; apply inClass_validKeyClass; auto.
Qed.

(** The five checks of [validateKey], one by one. *)

Lemma lengthCheck_iff (k : string) :
  (String.length k <? MinKeyLength)%nat
  || (MaxKeyLength <? String.length k)%nat
  = false <-> LengthOk k.
Proof.
  unfold LengthOk, MinKeyLength, MaxKeyLength.
  rewrite orb_false_iff, !Nat.ltb_ge. lia.
Qed.

Lemma charsCheck_iff (k : string) :
  k <> "" -> (MatchString validKeyRegex k = true <-> CharsOk k).
Proof.
  intros Hk. unfold validKeyRegex.
  rewrite MatchString_Plus_Class, andb_true_iff, forallb_validKeyClass.
  destruct (String.eqb_spec k ""); [contradiction|]. simpl. tauto.
Qed.

Lemma prefixCheck_iff (r : RedisRepository) (k : string) :
  strings.HasPrefix k (prefix r ++ separator r) = true <-> PrefixOk r k.
Proof.
  unfold strings.HasPrefix, PrefixOk. rewrite prefix_app.
  split; intros [rest H]; exists rest.
  - now rewrite H, append_assoc.
  - now rewrite H, append_assoc.
Qed.

Lemma suffixCheck_iff (r : RedisRepository) (k : string) :
  (List.length (strings.Split k (separator r)) <? 2)%nat
  || String.eqb (nth 1 (strings.Split k (separator r)) "") "" = false
  <-> SuffixOk r k.
Proof.
  unfold SuffixOk.
  destruct (strings.Split k (separator r)) as [|p0 [|p1 ps]]; simpl.
  - split; [discriminate | intros (?&?&?&?&?); discriminate].
  - split; [discriminate | intros (?&?&?&?&?); discriminate].
  - destruct (String.eqb_spec p1 "") as [->|Hp1].
    + split; [discriminate | intros (?&?&?&H&?); congruence].
    + split; [intros _; exists p0, p1, ps; auto | reflexivity].
Qed.

Lemma partsCheck_iff (r : RedisRepository) (k : string) :
  existsb (fun part => String.eqb part "") (strings.Split k (separator r))
  = false <-> NoEmptyPart r k.
Proof.
  unfold NoEmptyPart.
  induction (strings.Split k (separator r)) as [|p ps IH]; simpl.
  - split; auto.
  - rewrite orb_false_iff, IH. split.
    + intros [Hp Hps]. constructor; auto.
      intros ->. discriminate.
    + intros H; inversion H; subst. split; auto.
      now destruct (String.eqb_spec p "").
Qed.

Lemma LengthOk_not_empty (k : string) : LengthOk k -> k <> "".
Proof. intros [H _] ->. simpl in H. lia. Qed.

(** The validator runs the five checks and nothing else. *)
Lemma validateKey_checks (r : RedisRepository) (k : string) :
  validateKey r k = None <-> ValidKey r k.
Proof.
  unfold ValidKey, validateKey.
  pose proof (lengthCheck_iff k) as HL.
  destruct ((String.length k <? MinKeyLength)%nat
            || (MaxKeyLength <? String.length k)%nat).
  { split; [discriminate | intros (H & _); apply HL in H; discriminate]. }
  assert (LOk : LengthOk k) by now apply HL.
  pose proof (charsCheck_iff k (LengthOk_not_empty k LOk)) as HC.
  destruct (MatchString validKeyRegex k); simpl.
  2:{ split; [discriminate | intros (_ & H & _); apply HC in H; discriminate]. }
  assert (COk : CharsOk k) by now apply HC.
  pose proof (prefixCheck_iff r k) as HP.
  destruct (strings.HasPrefix k (prefix r ++ separator r)); simpl.
  2:{ split; [discriminate | intros (_ & _ & H & _); apply HP in H; discriminate]. }
  assert (POk : PrefixOk r k) by now apply HP.
  pose proof (suffixCheck_iff r k) as HS.
  destruct ((List.length (strings.Split k (separator r)) <? 2)%nat
            || String.eqb (nth 1 (strings.Split k (separator r)) "") "").
  { split; [discriminate | intros (_ & _ & _ & H & _); apply HS in H; discriminate]. }
  assert (SOk : SuffixOk r k) by now apply HS.
  pose proof (partsCheck_iff r k) as HN.
  destruct (existsb (fun part => String.eqb part "")
              (strings.Split k (separator r))).
  { split; [discriminate | intros (_ & _ & _ & _ & H); apply HN in H; discriminate]. }
  split; [intros _ | reflexivity].
  assert (NOk : NoEmptyPart r k) by now apply HN.
  tauto.
Qed.

(** C1: [validateKey] accepts a key exactly when its length is between 5
    and 256, all its characters are alphanumeric, underscore, colon, dot or
    hyphen, it starts with the prefix followed by the separator, splitting
    it on the separator gives at least two parts of which the second is
    not empty, and no part of the split is empty. *)
Theorem validateKey_accepts_iff (r : RedisRepository) (k : string) :
  validateKey r k = None <->
  LengthOk k /\ CharsOk k /\ PrefixOk r k /\ SuffixOk r k /\ NoEmptyPart r k.
Proof.
  split.
  - intros H. now apply validateKey_checks in H.
  - intros H. now apply validateKey_checks.
Qed.

(** C2: a rejected key gets the error of the first check it fails, in the
    order length, character set, prefix, non-empty second part, no empty
    part; the five errors are of five different kinds, and the error
    returned is of the one kind only. *)
Theorem validateKey_first_failure (r : RedisRepository) (k : string) :
  (~ LengthOk k -> failsWith (validateKey r k) ErrInvalidKeyLength) /\
  (LengthOk k -> ~ CharsOk k ->
   failsWith (validateKey r k) ErrInvalidKeyChars) /\
  (LengthOk k -> CharsOk k -> ~ PrefixOk r k ->
   failsWith (validateKey r k) ErrInvalidKeyPrefix) /\
  (LengthOk k -> CharsOk k -> PrefixOk r k -> ~ SuffixOk r k ->
   failsWith (validateKey r k) ErrInvalidKeySuffix) /\
  (LengthOk k -> CharsOk k -> PrefixOk r k -> SuffixOk r k ->
   ~ NoEmptyPart r k ->
   failsWith (validateKey r k) ErrEmptyKeyPart).
Proof.
  unfold validateKey.
  pose proof (lengthCheck_iff k) as HL.
  destruct ((String.length k <? MinKeyLength)%nat
            || (MaxKeyLength <? String.length k)%nat).
  { assert (NL : ~ LengthOk k) by (intros H; apply HL in H; discriminate).
    repeat split; try tauto.
    intros _. eexists; split; [reflexivity | only_kind]. }
  assert (LOk : LengthOk k) by now apply HL.
  pose proof (charsCheck_iff k (LengthOk_not_empty k LOk)) as HC.
  destruct (MatchString validKeyRegex k); simpl.
  2:{ assert (NC : ~ CharsOk k) by (intros H; apply HC in H; discriminate).
      repeat split; try tauto.
      intros _ _. eexists; split; [reflexivity | only_kind]. }
  assert (COk : CharsOk k) by now apply HC.
  pose proof (prefixCheck_iff r k) as HP.
  destruct (strings.HasPrefix k (prefix r ++ separator r)); simpl.
  2:{ assert (NP : ~ PrefixOk r k) by (intros H; apply HP in H; discriminate).
      repeat split; try tauto.
      intros _ _ _. eexists; split; [reflexivity | only_kind]. }
  assert (POk : PrefixOk r k) by now apply HP.
  pose proof (suffixCheck_iff r k) as HS.
  destruct ((List.length (strings.Split k (separator r)) <? 2)%nat
            || String.eqb (nth 1 (strings.Split k (separator r)) "") "").
  { assert (NS : ~ SuffixOk r k) by (intros H; apply HS in H; discriminate).
    repeat split; try tauto.
    intros _ _ _ _. eexists; split; [reflexivity | only_kind]. }
  assert (SOk : SuffixOk r k) by now apply HS.
  pose proof (partsCheck_iff r k) as HN.
  destruct (existsb (fun part => String.eqb part "")
              (strings.Split k (separator r))).
  { repeat split; try tauto.
    intros _ _ _ _ _. eexists; split; [reflexivity | only_kind]. }
  assert (NOk : NoEmptyPart r k) by now apply HN.
  repeat split; tauto.
Qed.

(** With the default configuration the key [app::42] is long enough,
    well-charactered and well-prefixed; its second part is empty, which the
    fourth check reports as [ErrInvalidKeySuffix] before the scan for empty
    parts is reached. *)
Lemma validateKey_first_failure_witness :
  failsWith (validateKey defaultRepository "app::42") ErrInvalidKeySuffix.
Proof.
  apply (proj1 (proj2 (proj2 (proj2
           (validateKey_first_failure defaultRepository "app::42"))))).
  - unfold LengthOk; simpl; lia.
  - apply forallb_validKeyClass; reflexivity.
  - exists ":42"; reflexivity.
  - intros H; apply suffixCheck_iff in H; discriminate.
Defined.

(** The scan for empty parts is reached by a key whose empty part comes
    later. *)
Example validateKey_empty_third_part :
  validateKey defaultRepository "app:a::b" = Some (New ErrEmptyKeyPart).
Proof. reflexivity. Qed.

(** ** [strings.Split] *)

Lemma splitFrom_not_nil (sep : string) (skip : nat) (s : string) :
  strings.splitFrom sep skip s <> [].
Proof.
  revert skip; induction s as [|c s IH]; intros skip;
    cbn [strings.splitFrom].
  - discriminate.
  - destruct skip as [|k]; [|apply IH].
    destruct (String.prefix sep (String c s)); [discriminate|].
    destruct (strings.splitFrom sep 0 s); discriminate.
Qed.

(** [Split] hands back at least one element for a non-empty string, so
    [Split(key, sep)[1:]] is in range in [parseKey]. *)
Lemma Split_not_nil (s sep : string) :
  s <> "" -> strings.Split s sep <> [].
Proof.
  intros Hs. unfold strings.Split. destruct sep.
  - destruct s; simpl; [congruence | discriminate].
  - apply splitFrom_not_nil.
Qed.

Lemma Join_single (p sep : string) : strings.Join [p] sep = p.
Proof. reflexivity. Qed.

Example Split_on_comma :
  strings.Split "a,b,c" "," = ["a"; "b"; "c"] /\
  strings.Split "" "," = [""] /\
  strings.Split ",a," "," = [""; "a"; ""].
Proof. repeat split. Qed.

(** Occurrences of a longer separator are taken leftmost and do not
    overlap. *)
Example Split_on_two_hyphens :
  strings.Split "a--b---c" "--" = ["a"; "b"; "-c"] /\
  strings.Split "abc" "" = ["a"; "b"; "c"].
Proof. repeat split. Qed.

Example MatchString_examples :
  MatchString validKeyRegex "app:user-1.x_" = true /\
  MatchString validKeyRegex "" = false /\
  MatchString validKeyRegex "app user" = false /\
  MatchString entityPrefixRegex "user_1" = true /\
  MatchString entityPrefixRegex "1user" = false /\
  MatchString entityPrefixRegex "" = false.
Proof. repeat split. Qed.

(** ** Decoding a key *)

Lemma validateKey_parts (r : RedisRepository) (k : string) :
  validateKey r k = None ->
  exists p0 p1 ps, strings.Split k (separator r) = p0 :: p1 :: ps.
Proof.
  intros H. apply validateKey_checks in H.
  destruct H as (_ & _ & _ & (p0 & p1 & ps & E & _) & _).
  now exists p0, p1, ps.
Qed.

(** What [parseKey] and [keyToIdentifier] make of a validated key whose
    split is known. *)
Lemma keyToIdentifier_valid (r : RedisRepository) (k p0 p1 : string)
  (ps : list string) :
  validateKey r k = None ->
  strings.Split k (separator r) = p0 :: p1 :: ps ->
  parseKey r k = inl (p1 :: ps) /\
  keyToIdentifier r k
  = inl (match ps with
         | [] => SimpleIdentifier p1
         | p2 :: _ => RedisIdentifier p1 p2
         end).
Proof.
  intros H E. unfold keyToIdentifier, parseKey. rewrite H, E. simpl.
  split; [reflexivity|]. destruct ps; reflexivity.
Qed.

(** A validated key is decoded by the number of parts [parseKey] hands
    back, the parts of the split after the first: two or more give the
    composite identifier of the first two (further parts are dropped),
    exactly one gives the simple identifier of that part. *)
Theorem keyToIdentifier_by_shape (r : RedisRepository) (k : string) :
  validateKey r k = None ->
  exists parts,
    parseKey r k = inl parts /\
    parts = skipn 1 (strings.Split k (separator r)) /\
    ((exists a b more,
         parts = a :: b :: more /\
         keyToIdentifier r k = inl (RedisIdentifier a b)) \/
     (exists a,
         parts = [a] /\
         keyToIdentifier r k = inl (SimpleIdentifier a))).
Proof.
  intros H. destruct (validateKey_parts r k H) as (p0 & p1 & ps & E).
  destruct (keyToIdentifier_valid r k p0 p1 ps H E) as [Hp Hid].
  exists (p1 :: ps). rewrite E. repeat split; [exact Hp|].
  destruct ps as [|p2 more].
  - right. exists p1. split; [reflexivity | exact Hid].
  - left. exists p1, p2, more. split; [reflexivity | exact Hid].
Qed.

Lemma keyToIdentifier_by_shape_witness :
  exists parts,
    parseKey defaultRepository "app:user:42:extra" = inl parts /\
    parts = skipn 1 (strings.Split "app:user:42:extra"
                       (separator defaultRepository)) /\
    ((exists a b more,
         parts = a :: b :: more /\
         keyToIdentifier defaultRepository "app:user:42:extra"
         = inl (RedisIdentifier a b)) \/
     (exists a,
         parts = [a] /\
         keyToIdentifier defaultRepository "app:user:42:extra"
         = inl (SimpleIdentifier a))).
Proof.
  apply (keyToIdentifier_by_shape defaultRepository "app:user:42:extra").
  reflexivity.
Defined.

(** The composite identifier of a key with three parts after the prefix
    keeps the first two. *)
Example keyToIdentifier_drops_further_parts :
  keyToIdentifier defaultRepository "app:user:42:extra"
  = inl (RedisIdentifier "user" "42").
Proof. reflexivity. Qed.

Example keyToIdentifier_single_part :
  keyToIdentifier defaultRepository "app:hello"
  = inl (SimpleIdentifier "hello").
Proof. reflexivity. Qed.

(** C10: a key that passes [validateKey] is always decoded: the slice
    [parts[1:]] is in range, [keyToIdentifier] returns an identifier and no
    error, and the loop body of [List] and [Search] appends that identifier
    (the branch that skips a key whose conversion failed is not taken). *)
Theorem keyToIdentifier_total (r : RedisRepository) (k : string) :
  validateKey r k = None ->
  1 <= List.length (strings.Split k (separator r)) /\
  exists identifier,
    keyToIdentifier r k = inl identifier /\
    forall identifiers,
      appendDecoded r identifiers k = (identifiers ++ [identifier])%list.
Proof.
  intros H. split.
  - destruct (validateKey_parts r k H) as (p0 & p1 & ps & E).
    rewrite E. simpl. lia.
  - destruct (validateKey_parts r k H) as (p0 & p1 & ps & E).
    destruct (keyToIdentifier_valid r k p0 p1 ps H E) as [_ Hid].
    eexists. split; [exact Hid|].
    intros ids. unfold appendDecoded. now rewrite H, Hid.
Qed.

Lemma keyToIdentifier_total_witness :
  1 <= List.length (strings.Split "app:user:42" (separator defaultRepository))
  /\ exists identifier,
    keyToIdentifier defaultRepository "app:user:42" = inl identifier /\
    forall identifiers,
      appendDecoded defaultRepository identifiers "app:user:42"
      = (identifiers ++ [identifier])%list.
Proof.
  apply (keyToIdentifier_total defaultRepository "app:user:42").
  reflexivity.
Defined.

(** ** Splitting on a one-character separator *)

Lemma Contains_single (c : ascii) (s : string) :
  Contains s (String c "") <-> In c (list_ascii_of_string s).
Proof.
  split.
  - intros (a & b & ->). induction a as [|x a IH]; simpl; auto.
  - induction s as [|x s IH]; simpl; [tauto|].
    intros [->|H].
    + exists "", s. reflexivity.
    + destruct (IH H) as (a & b & ->). exists (String x a), b. reflexivity.
Qed.

Lemma prefix_empty (s : string) : String.prefix "" s = true.
Proof. destruct s; reflexivity. Qed.

Lemma prefix_single (c x : ascii) (s : string) :
  String.prefix (String c "") (String x s) = true <-> c = x.
Proof.
  simpl. destruct (Ascii.ascii_dec c x) as [E|E].
  - rewrite prefix_empty. tauto.
  - split; [discriminate | contradiction].
Qed.

Lemma splitFrom_single_app (c : ascii) (a b : string) :
  strings.splitFrom (String c "") 0 (a ++ String c b) =
  (strings.splitFrom (String c "") 0 a
   ++ strings.splitFrom (String c "") 0 b)%list.
Proof.
  induction a as [|x a IH].
  - cbn [append strings.splitFrom app String.length Nat.sub].
    assert (E : String.prefix (String c "") (String c b) = true)
      by now apply prefix_single.
    now rewrite E.
  - cbn [append strings.splitFrom].
    destruct (String.prefix (String c "") (String x (a ++ String c b))) eqn:E1;
      destruct (String.prefix (String c "") (String x a)) eqn:E2.
    + cbn [String.length Nat.sub]. now rewrite IH.
    + apply prefix_single in E1. subst x.
      assert (E : String.prefix (String c "") (String c a) = true)
        by now apply prefix_single.
      congruence.
    + apply prefix_single in E2. subst x.
      assert (E : String.prefix (String c "") (String c (a ++ String c b))
                  = true) by now apply prefix_single.
      congruence.
    + rewrite IH.
      pose proof (splitFrom_not_nil (String c "") 0 a) as Hn.
      destruct (strings.splitFrom (String c "") 0 a); [contradiction|].
      reflexivity.
Qed.

Lemma splitFrom_single_free (c : ascii) (a : string) :
  ~ In c (list_ascii_of_string a) ->
  strings.splitFrom (String c "") 0 a = [a].
Proof.
  induction a as [|x a IH]; intros Hn; [reflexivity|].
  cbn [strings.splitFrom].
  destruct (String.prefix (String c "") (String x a)) eqn:E.
  - apply prefix_single in E. subst x. elim Hn. now left.
  - rewrite IH; [reflexivity|]. intros H. apply Hn. now right.
Qed.

Lemma Split_single_free (r : RedisRepository) (c : ascii) (a : string) :
  separator r = String c "" -> SeparatorFree r a ->
  strings.Split a (separator r) = [a].
Proof.
  unfold SeparatorFree. intros E Hf. rewrite E in *.
  apply splitFrom_single_free. now rewrite <- Contains_single.
Qed.

Lemma Split_single_app (r : RedisRepository) (c : ascii) (a b : string) :
  separator r = String c "" ->
  strings.Split (a ++ separator r ++ b) (separator r) =
  (strings.Split a (separator r) ++ strings.Split b (separator r))%list.
Proof.
  intros E. rewrite E. apply splitFrom_single_app.
Qed.

(** When the separator is one character that the prefix does not contain,
    the parts [parseKey] hands back are those of the key stripped of the
    prefix and the separator. *)
Lemma parseKey_strips_prefix (r : RedisRepository) (c : ascii)
  (rest : string) :
  separator r = String c "" ->
  SeparatorFree r (prefix r) ->
  validateKey r (prefix r ++ separator r ++ rest) = None ->
  parseKey r (prefix r ++ separator r ++ rest)
  = inl (strings.Split rest (separator r)).
Proof.
  intros Es Hp V. unfold parseKey. rewrite V.
  rewrite (Split_single_app r c _ _ Es), (Split_single_free r c) by assumption.
  reflexivity.
Qed.

Lemma SeparatorFree_default (s : string) :
  ~ In ":"%char (list_ascii_of_string s) -> SeparatorFree defaultRepository s.
Proof.
  unfold SeparatorFree. simpl. unfold DefaultKeySeparator.
  now rewrite Contains_single.
Qed.

Lemma dropBytes_app (a b : string) :
  dropBytes (String.length a) (a ++ b) = b.
Proof. induction a as [|x a IH]; simpl; [now destruct b | exact IH]. Qed.

(** C4, as amended: when the separator is one character that the
    configured prefix does not contain, a key that passes validation is
    decoded by the shape of what is left of it once the prefix and the
    separator are stripped and the rest is split on the separator: these
    are the parts [parseKey] hands back, there is at least one, two or
    more give the composite identifier of the first two (further parts are
    dropped) and exactly one gives the simple identifier of that part. *)
Theorem keyToIdentifier_by_stripped_shape (r : RedisRepository) (c : ascii)
  (k : string) :
  separator r = String c "" ->
  SeparatorFree r (prefix r) ->
  validateKey r k = None ->
  parseKey r k = inl (strippedParts r k) /\
  strippedParts r k <> [] /\
  DecodesByShape r k.
Proof.
  intros Es Hp V.
  assert (HP : PrefixOk r k) by (apply validateKey_checks in V; apply V).
  destruct HP as [rest Hrest].
  assert (Hstrip : strippedParts r k = strings.Split rest (separator r)).
  { unfold strippedParts. rewrite Hrest.
    now rewrite <- append_assoc, dropBytes_app. }
  destruct (validateKey_parts r k V) as (p0 & p1 & ps & E).
  assert (Erest : strings.Split rest (separator r) = p1 :: ps).
  { assert (E' := E). rewrite Hrest in E'.
    rewrite (Split_single_app r c _ _ Es), (Split_single_free r c) in E'
      by assumption.
    now injection E'. }
  destruct (keyToIdentifier_valid r k p0 p1 ps V E) as [Hparse Hid].
  rewrite Hstrip, Erest. split; [exact Hparse|].
  split; [discriminate|]. unfold DecodesByShape. rewrite Hstrip, Erest.
  split.
  - intros a b more [= -> ->]. exact Hid.
  - intros a [= -> ->]. exact Hid.
Qed.

Lemma keyToIdentifier_by_stripped_shape_witness :
  parseKey defaultRepository "app:user:42:extra"
  = inl (strippedParts defaultRepository "app:user:42:extra") /\
  strippedParts defaultRepository "app:user:42:extra" <> [] /\
  DecodesByShape defaultRepository "app:user:42:extra".
Proof.
  apply (keyToIdentifier_by_stripped_shape defaultRepository ":"%char
           "app:user:42:extra").
  - reflexivity.
  - apply SeparatorFree_default. simpl. intuition discriminate.
  - reflexivity.
Defined.

(** C4 fails as stated: with the prefix [a:b] and the default separator
    the key [a:b:hello] passes validation; stripped of [a:b:] it has the
    one part [hello], yet it is decoded as the composite identifier
    [{b, hello}], because [parseKey] drops the first part of the split,
    [a], and not the prefix. *)
Lemma decoding_by_stripped_shape_fails :
  NewRedisRepository (ConfigRedis nestedPrefixConfig)
  = inl nestedPrefixRepository /\
  validateKey nestedPrefixRepository "a:b:hello" = None /\
  strippedParts nestedPrefixRepository "a:b:hello" = ["hello"] /\
  keyToIdentifier nestedPrefixRepository "a:b:hello"
  = inl (RedisIdentifier "b" "hello") /\
  ~ DecodesByShape nestedPrefixRepository "a:b:hello".
Proof.
  repeat (split; [reflexivity|]).
  intros [_ H]. specialize (H "hello" eq_refl). discriminate.
Qed.

Lemma createKey_inl (r : RedisRepository) (parts : list string) (key : string) :
  createKey r parts = inl key ->
  key = strings.Join (prefix r :: parts) (separator r) /\
  validateKey r key = None.
Proof.
  unfold createKey.
  destruct (validateKey r (strings.Join (prefix r :: parts) (separator r)))
    eqn:E; [discriminate|].
  intros H; injection H as <-. auto.
Qed.

(** A key is rendered only after both validations. *)
Lemma identifierToKey_inl (r : RedisRepository) (id : EntityIdentifier)
  (key : string) :
  identifierToKey r id = inl key ->
  validateKey r key = None /\
  match id with
  | RedisIdentifier EntityPrefix ID =>
      MatchString entityPrefixRegex EntityPrefix = true /\
      key = prefix r ++ separator r ++ EntityPrefix ++ separator r ++ ID
  | SimpleIdentifier s => key = prefix r ++ separator r ++ s
  | OtherIdentifier => False
  end.
Proof.
  destruct id as [ep i | s |]; simpl; [| |discriminate].
  - unfold validateEntityPrefix.
    destruct (MatchString entityPrefixRegex ep); simpl; [|discriminate].
    intros H. apply createKey_inl in H. destruct H as [-> V]. auto.
  - intros H. apply createKey_inl in H. destruct H as [-> V]. auto.
Qed.

(** C3, as amended: when the separator is one character and the configured
    prefix does not contain it, every identifier of the two supported
    types whose parts contain no separator and which [identifierToKey]
    renders is given back by [keyToIdentifier] from the rendered key. *)
Theorem roundtrip_separator_free_prefix (r : RedisRepository) (c : ascii)
  (id : EntityIdentifier) :
  separator r = String c "" ->
  SeparatorFree r (prefix r) ->
  PartsSeparatorFree r id ->
  RoundTrips r id.
Proof.
  intros Es Hp Hid key Hk.
  destruct (identifierToKey_inl r id key Hk) as [V Hshape].
  unfold keyToIdentifier, parseKey. rewrite V.
  destruct id as [ep i | s |]; simpl in Hid; [| |contradiction].
  - destruct Hshape as [_ ->]. destruct Hid as [Hep Hi].
    rewrite (Split_single_app r c _ _ Es), (Split_single_app r c _ _ Es).
    rewrite !(Split_single_free r c) by assumption.
    reflexivity.
  - subst key.
    rewrite (Split_single_app r c _ _ Es).
    rewrite !(Split_single_free r c) by assumption.
    reflexivity.
Qed.

Lemma roundtrip_separator_free_prefix_witness :
  RoundTrips defaultRepository (RedisIdentifier "user" "42").
Proof.
  apply (roundtrip_separator_free_prefix defaultRepository ":"%char).
  - reflexivity.
  - apply SeparatorFree_default. simpl. intuition discriminate.
  - split; apply SeparatorFree_default; simpl; intuition discriminate.
Defined.

(** The example of the testable properties: [{user, 42}] is rendered as
    [app:user:42], eleven characters, and decoded back. *)
Example roundtrip_user_42 :
  identifierToKey defaultRepository (RedisIdentifier "user" "42")
  = inl "app:user:42" /\
  String.length "app:user:42" = 11 /\
  keyToIdentifier defaultRepository "app:user:42"
  = inl (RedisIdentifier "user" "42").
Proof. repeat split. Qed.

(** C3 fails as stated: with the prefix [a:b] and the default separator the
    simple identifier [hello] has no separator in it and is rendered as
    [a:b:hello], which is decoded as the composite identifier [{b, hello}]. *)
Lemma roundtrip_fails_for_nested_prefix :
  NewRedisRepository (ConfigRedis nestedPrefixConfig)
  = inl nestedPrefixRepository /\
  PartsSeparatorFree nestedPrefixRepository (SimpleIdentifier "hello") /\
  identifierToKey nestedPrefixRepository (SimpleIdentifier "hello")
  = inl "a:b:hello" /\
  keyToIdentifier nestedPrefixRepository "a:b:hello"
  = inl (RedisIdentifier "b" "hello") /\
  ~ RoundTrips nestedPrefixRepository (SimpleIdentifier "hello").
Proof.
  split; [reflexivity|]. split.
  - simpl. unfold SeparatorFree. simpl. rewrite Contains_single.
    simpl. intuition discriminate.
  - split; [reflexivity|]. split; [reflexivity|].
    intros H. specialize (H "a:b:hello" eq_refl). discriminate.
Qed.

(** ** The lock key *)

Lemma list_ascii_of_string_app (a b : string) :
  list_ascii_of_string (a ++ b) =
  (list_ascii_of_string a ++ list_ascii_of_string b)%list.
Proof. induction a as [|x a IH]; simpl; [reflexivity | now rewrite IH]. Qed.

Lemma CharsOk_app (a b : string) : CharsOk (a ++ b) <-> CharsOk a /\ CharsOk b.
Proof.
  unfold CharsOk. rewrite list_ascii_of_string_app. apply Forall_app.
Qed.

Lemma CharsOk_lock : CharsOk KeyPartLock.
Proof. apply forallb_validKeyClass. reflexivity. Qed.

(** Keys met in the enumeration loops are only decoded when they are
    valid. *)
Lemma appendDecoded_only_valid (r : RedisRepository)
  (identifiers : list EntityIdentifier) (k : string) :
  appendDecoded r identifiers k <> identifiers -> ValidKey r k.
Proof.
  unfold appendDecoded. intros H. apply validateKey_checks.
  destruct (validateKey r k); [congruence | reflexivity].
Qed.

Lemma lockKey_ValidKey (r : RedisRepository) (c : ascii) (key : string) :
  separator r = String c "" ->
  ~ In c (list_ascii_of_string KeyPartLock) ->
  ValidKey r key ->
  (ValidKey r (lockKeyOf r key) <->
   String.length key + String.length (separator r)
   + String.length KeyPartLock <= MaxKeyLength).
Proof.
  intros Es Hc (HL & HC & HP & HS & HN). unfold lockKeyOf.
  assert (Elen : String.length (key ++ separator r ++ KeyPartLock)
                 = String.length key + String.length (separator r)
                   + String.length KeyPartLock)
    by (rewrite !length_append; lia).
  split.
  - intros (HL' & _). unfold LengthOk in HL'. unfold MaxKeyLength. lia.
  - intros Hlen. unfold ValidKey.
    assert (Esplit : strings.Split (key ++ separator r ++ KeyPartLock)
                       (separator r)
                     = (strings.Split key (separator r) ++ [KeyPartLock])%list).
    { rewrite (Split_single_app r c _ _ Es). f_equal.
      rewrite Es. now apply splitFrom_single_free. }
    repeat split.
    + unfold LengthOk in HL. lia.
    + unfold MaxKeyLength in Hlen. lia.
    + destruct HP as [rest Hrest].
      apply CharsOk_app. split; [assumption|].
      apply CharsOk_app. split; [|apply CharsOk_lock].
      rewrite Hrest in HC.
      apply CharsOk_app in HC. destruct HC as [_ HC].
      apply CharsOk_app in HC. tauto.
    + destruct HP as [rest Hrest].
      exists (rest ++ separator r ++ KeyPartLock).
      rewrite Hrest at 1. now rewrite !append_assoc.
    + destruct HS as (p0 & p1 & ps & E & Hp1).
      exists p0, p1, (ps ++ [KeyPartLock])%list.
      rewrite Esplit, E. auto.
    + unfold NoEmptyPart. rewrite Esplit. apply Forall_app. split; auto.
      constructor; [discriminate | constructor].
Qed.

Lemma AcquireLock_log {St : Type} (h : handler St) (s : St)
  (r : RedisRepository) (id : EntityIdentifier) (key : string) (ttl : Z) :
  identifierToKey r id = inl key ->
  exists x,
    log (run h (AcquireLock r id ttl) s)
    = [Called (redis.SetNX (lockKeyOf r key) (AnyInt 1) ttl) x].
Proof.
  intros Hk. unfold AcquireLock. rewrite Hk. cbn [run].
  destruct (h _ (redis.SetNX (lockKeyOf r key) (AnyInt 1) ttl) s)
    as [[acquired [err|]] s1]; eexists; reflexivity.
Qed.

Lemma ReleaseLock_log {St : Type} (h : handler St) (s : St)
  (r : RedisRepository) (id : EntityIdentifier) (key : string) :
  identifierToKey r id = inl key ->
  exists x,
    log (run h (ReleaseLock r id) s)
    = [Called (redis.Del (lockKeyOf r key)) x].
Proof.
  intros Hk. unfold ReleaseLock. rewrite Hk. cbn [run].
  destruct (h _ (redis.Del (lockKeyOf r key)) s) as [[n [err|]] s1];
    [eexists; reflexivity|].
  destruct (n =? 0)%Z; eexists; reflexivity.
Qed.

(** C9, as amended: every key rendered from an identifier and every key
    decoded in the enumeration loops satisfies the key grammar, whatever
    the separator.  The lock key is used as derived, without validation:
    the one call [AcquireLock] and [ReleaseLock] make is on the base key
    followed by the separator and [lock], whether that key satisfies the
    grammar or not; and for a one-character separator that is not a letter
    of [lock] it satisfies the grammar exactly when the base key leaves
    room for the separator and the four letters below the maximal
    length. *)
Theorem keys_valid_lock_key_bounded (r : RedisRepository)
  (id : EntityIdentifier) (key : string) :
  identifierToKey r id = inl key ->
  ValidKey r key /\
  (forall identifiers k,
      appendDecoded r identifiers k <> identifiers -> ValidKey r k) /\
  (forall (St : Type) (h : handler St) (s : St) (ttl : Z),
      exists x,
        log (run h (AcquireLock r id ttl) s)
        = [Called (redis.SetNX (lockKeyOf r key) (AnyInt 1) ttl) x]) /\
  (forall (St : Type) (h : handler St) (s : St),
      exists x,
        log (run h (ReleaseLock r id) s)
        = [Called (redis.Del (lockKeyOf r key)) x]) /\
  (forall c,
      separator r = String c "" ->
      ~ In c (list_ascii_of_string KeyPartLock) ->
      (ValidKey r (lockKeyOf r key) <->
       String.length key + String.length (separator r)
       + String.length KeyPartLock <= MaxKeyLength)).
Proof.
  intros Hk.
  assert (V : ValidKey r key).
  { apply validateKey_checks. now apply identifierToKey_inl in Hk. }
  split; [exact V|]. split; [apply appendDecoded_only_valid|].
  split; [intros St h s ttl; now apply AcquireLock_log|].
  split; [intros St h s; now apply ReleaseLock_log|].
  intros c Es Hc. now apply (lockKey_ValidKey r c).
Qed.

Lemma keys_valid_lock_key_bounded_witness :
  ValidKey defaultRepository "app:user:42" /\
  (forall identifiers k,
      appendDecoded defaultRepository identifiers k <> identifiers ->
      ValidKey defaultRepository k) /\
  (forall (St : Type) (h : handler St) (s : St) (ttl : Z),
      exists x,
        log (run h (AcquireLock defaultRepository
                      (RedisIdentifier "user" "42") ttl) s)
        = [Called (redis.SetNX (lockKeyOf defaultRepository "app:user:42")
                     (AnyInt 1) ttl) x]) /\
  (forall (St : Type) (h : handler St) (s : St),
      exists x,
        log (run h (ReleaseLock defaultRepository
                      (RedisIdentifier "user" "42")) s)
        = [Called (redis.Del (lockKeyOf defaultRepository "app:user:42")) x])
  /\
  (forall c,
      separator defaultRepository = String c "" ->
      ~ In c (list_ascii_of_string KeyPartLock) ->
      (ValidKey defaultRepository
         (lockKeyOf defaultRepository "app:user:42") <->
       String.length "app:user:42"
       + String.length (separator defaultRepository)
       + String.length KeyPartLock <= MaxKeyLength)).
Proof.
  apply (keys_valid_lock_key_bounded defaultRepository
           (RedisIdentifier "user" "42") "app:user:42").
  reflexivity.
Defined.

(** C9 fails as stated: the simple identifier of 252 letters is rendered
    as a key of 256 characters, which is valid; its lock key has 261
    characters and does not pass [validateKey]. *)
Lemma lock_key_too_long :
  let id := SimpleIdentifier (replicate 252 "a") in
  let key := "app:" ++ replicate 252 "a" in
  identifierToKey defaultRepository id = inl key /\
  validateKey defaultRepository key = None /\
  String.length (lockKeyOf defaultRepository key) = 261 /\
  validateKey defaultRepository (lockKeyOf defaultRepository key)
  = Some (Errorf_w (New ErrInvalidKeyLength)
            ": key length must be between 5 and 256 characters") /\
  ~ ValidKey defaultRepository (lockKeyOf defaultRepository key).
Proof.
  cbv zeta. split; [vm_compute; reflexivity|].
  split; [vm_compute; reflexivity|].
  split; [vm_compute; reflexivity|].
  split; [vm_compute; reflexivity|].
  intros H. apply validateKey_checks in H. vm_compute in H. discriminate.
Qed.

(** ** Create on an existing key *)

(** C6: when the identifier is rendered as [key] and the store answers the
    existence probe for [key] with 1, [Create] returns [ErrAlreadyExists],
    the probe is the only call it makes (no write is issued), and the store
    is left in the state the probe left it in. *)
Theorem Create_existing_key {St : Type} (h : handler St) (s s' : St)
  (r : RedisRepository) (identifier : EntityIdentifier) (value : any)
  (key : string) :
  identifierToKey r identifier = inl key ->
  h _ (redis.Exists key) s = ((1%Z, None), s') ->
  let e := run h (Create r identifier value) s in
  result e = Some (Some (New ErrAlreadyExists)) /\
  log e = [Called (redis.Exists key) (1%Z, None)] /\
  existsb isWrite (log e) = false /\
  final e = s'.
Proof.
  intros Hk Hh. unfold Create. rewrite Hk. cbn [run]. rewrite Hh.
  cbn. repeat split.
Qed.

Lemma Create_existing_key_witness :
  let h := scripted {| onExists := (1%Z, None); onJSONSet := None;
                       onJSONGet := ("{}", None); onDel := (1%Z, None);
                       onKeys := (["app:user:42"], None);
                       onDo := (AnySlice [AnyInt64 0], None);
                       onSetNX := (false, None); onPublish := None;
                       onPing := None; onClose := None |} in
  let e := run h (Create defaultRepository (RedisIdentifier "user" "42")
                    (AnyString "{}")) tt in
  result e = Some (Some (New ErrAlreadyExists)) /\
  log e = [Called (redis.Exists "app:user:42") (1%Z, None)] /\
  existsb isWrite (log e) = false /\
  final e = tt.
Proof.
  intros h.
  apply (Create_existing_key h tt tt defaultRepository
           (RedisIdentifier "user" "42") (AnyString "{}") "app:user:42").
  - reflexivity.
  - reflexivity.
Defined.

(** ** Enumerations *)

Lemma appendDecoded_cases (r : RedisRepository)
  (acc : list EntityIdentifier) (k : string) :
  (decodable r k = true /\
   exists id, keyToIdentifier r k = inl id /\
              appendDecoded r acc k = (acc ++ [id])%list) \/
  (decodable r k = false /\ appendDecoded r acc k = acc).
Proof.
  unfold decodable, appendDecoded.
  destruct (validateKey r k); [right; auto|].
  destruct (keyToIdentifier r k) as [id|err]; [left | right; auto].
  split; [reflexivity|]. exists id. auto.
Qed.

Lemma fold_appendDecoded (r : RedisRepository) (keys : list string) :
  forall acc, exists ids,
    fold_left (appendDecoded r) keys acc = (acc ++ ids)%list /\
    DecodedFrom r keys ids.
Proof.
  unfold DecodedFrom.
  induction keys as [|k keys IH]; intros acc; simpl.
  - exists []. rewrite app_nil_r. split; [reflexivity | constructor].
  - destruct (appendDecoded_cases r acc k)
      as [(D & id & Hid & E) | (D & E)]; rewrite D, E.
    + destruct (IH (acc ++ [id])%list) as (ids & Hf & H2).
      exists (id :: ids). rewrite Hf, <- app_assoc. simpl.
      split; [reflexivity | now constructor].
    + apply IH.
Qed.

Lemma searchLoop_hits (r : RedisRepository) (hits : list (string * any)) :
  forall acc,
    searchLoop r (flat_map (fun hit => [AnyString (fst hit); snd hit]) hits) acc
    = fold_left (appendDecoded r) (map fst hits) acc.
Proof.
  induction hits as [|[k sc] hits IH]; intros acc; simpl; [reflexivity|].
  apply IH.
Qed.

(** C7, as amended: [List] returns, without error, exactly the
    identifiers decoded from the keys of the enumeration that pass
    validation and decoding, in the order of the enumeration, the other
    keys being skipped; so does [Search] for an envelope whose total is
    at least 1 and at most the largest capacity the result slice can be
    made with; for a total of 0 [Search] returns the empty sequence,
    whatever keys follow in the envelope. *)
Theorem enumeration_decodes_valid_keys {St : Type} (h : handler St)
  (s s' : St) (r : RedisRepository) :
  (forall pattern patternKey keys,
      identifierToKey r pattern = inl patternKey ->
      h _ (redis.Keys (patternKey ++ "*")) s = ((keys, None), s') ->
      exists identifiers,
        result (run h (List r pattern) s) = Some (inl identifiers) /\
        DecodedFrom r keys identifiers) /\
  (forall query offset limit sortBy sortDir total hits,
      h _ (redis.Do (searchArgs r query offset limit sortBy sortDir)) s
      = ((envelope total hits, None), s') ->
      ((0 < total <= maxSliceCap)%Z ->
       exists identifiers,
         result (run h (Search r query offset limit sortBy sortDir) s)
         = Some (inl identifiers) /\
         DecodedFrom r (map fst hits) identifiers) /\
      (total = 0%Z ->
       result (run h (Search r query offset limit sortBy sortDir) s)
       = Some (inl []))).
Proof.
  split.
  - intros pattern patternKey keys Hk Hh.
    unfold List. rewrite Hk. cbn [run]. rewrite Hh. cbn.
    destruct (fold_appendDecoded r keys []) as (ids & Hf & H2).
    exists ids. rewrite Hf. auto.
  - intros query offset limit sortBy sortDir total hits Hh.
    unfold Search. fold (searchArgs r query offset limit sortBy sortDir).
    cbn [run]. rewrite Hh. unfold envelope. split.
    + intros [Hpos Hmax].
      destruct (Z.eqb_spec total 0) as [E0|_]; [lia|].
      destruct (Z.ltb_spec total 0) as [Hneg|_]; [lia|].
      destruct (Z.ltb_spec maxSliceCap total) as [Hbig|_]; [lia|].
      cbn [orb run result]. rewrite searchLoop_hits.
      destruct (fold_appendDecoded r (map fst hits) []) as (ids & Hf & H2).
      exists ids. rewrite Hf. auto.
    + intros ->. reflexivity.
Qed.

Lemma enumeration_decodes_valid_keys_witness :
  (exists identifiers,
      result (run threeKeysStore
                (List defaultRepository (SimpleIdentifier "hello")) tt)
      = Some (inl identifiers) /\
      DecodedFrom defaultRepository threeKeys identifiers) /\
  (exists identifiers,
      result (run threeKeysStore
                (Search defaultRepository "query" 0 10 "name" "ASC") tt)
      = Some (inl identifiers) /\
      DecodedFrom defaultRepository
        (map fst (map (fun k => (k, AnyString "1")) threeKeys)) identifiers).
Proof.
  destruct (enumeration_decodes_valid_keys threeKeysStore tt tt
              defaultRepository) as [HList HSearch].
  split.
  - apply (HList (SimpleIdentifier "hello") "app:hello" threeKeys);
      reflexivity.
  - apply (HSearch "query" 0%Z 10%Z "name" "ASC" 3%Z
             (map (fun k => (k, AnyString "1")) threeKeys)).
    + reflexivity.
    + unfold maxSliceCap. lia.
Defined.

(** C7 fails as stated: for an envelope with a total of 0 followed by a
    well-formed key, [Search] returns the empty sequence and not the
    identifier of that key; and for a total above the largest capacity
    of a slice of identifiers it returns nothing at all, it panics. *)
Lemma Search_zero_total_drops_hits :
  let hits := [("app:user:1", AnyString "1")] in
  DecodedFrom defaultRepository (map fst hits) [RedisIdentifier "user" "1"] /\
  result (run (searchStore (envelope 0 hits))
            (Search defaultRepository "query" 0 10 "name" "ASC") tt)
  = Some (inl []) /\
  result (run (searchStore (envelope (maxSliceCap + 1) hits))
            (Search defaultRepository "query" 0 10 "name" "ASC") tt)
  = None /\
  ~ SearchDecodes defaultRepository.
Proof.
  cbv zeta. split.
  - unfold DecodedFrom. simpl. repeat constructor.
  - split; [reflexivity|]. split; [reflexivity|].
    intros H.
    destruct (H unit
                (searchStore (envelope 0 [("app:user:1", AnyString "1")]))
                tt tt "query" 0%Z 10%Z "name" "ASC" 0%Z
                [("app:user:1", AnyString "1")] eq_refl)
      as (ids & Hres & Hdec).
    cbn in Hres. injection Hres as <-.
    unfold DecodedFrom in Hdec. simpl in Hdec. inversion Hdec.
Qed.

(** The example of the testable properties: two identifiers, in the order
    of the enumeration. *)
Example enumeration_of_three_keys :
  result (run threeKeysStore
            (List defaultRepository (SimpleIdentifier "hello")) tt)
  = Some (inl [RedisIdentifier "user" "1"; SimpleIdentifier "note"]) /\
  result (run threeKeysStore
            (Search defaultRepository "query" 0 10 "name" "ASC") tt)
  = Some (inl [RedisIdentifier "user" "1"; SimpleIdentifier "note"]).
Proof. split; reflexivity. Qed.

(** C8: when the search command answers without error with an envelope
    whose total is zero, [Search] returns the empty sequence and no
    error. *)
Theorem Search_no_results {St : Type} (h : handler St) (s s' : St)
  (r : RedisRepository) (query : string) (offset limit : Z)
  (sortBy sortDir : string) (rest : list any) :
  h _ (redis.Do (searchArgs r query offset limit sortBy sortDir)) s
  = ((AnySlice (AnyInt64 0 :: rest), None), s') ->
  result (run h (Search r query offset limit sortBy sortDir) s)
  = Some (inl []).
Proof.
  intros Hh. unfold Search.
  fold (searchArgs r query offset limit sortBy sortDir).
  cbn [run]. rewrite Hh. reflexivity.
Qed.

Lemma Search_no_results_witness :
  result (run (scripted quiet)
            (Search defaultRepository "query" 0 10 "name" "ASC") tt)
  = Some (inl []).
Proof.
  apply (Search_no_results (scripted quiet) tt tt defaultRepository
           "query" 0%Z 10%Z "name" "ASC" []).
  reflexivity.
Defined.

(** ** Errors reported by the store *)

(** C5, as amended: an error reported by the existence probe, by the
    deletion, by the key enumeration, by the search command or by the
    conditional set comes back as [ErrOperationFailed] formatted with the
    cause; so does an error of the document fetch, except [redis.Nil],
    which comes back as [ErrNotFound]; [Publish], [Ping] and [Close] hand
    the error of the store back as it is. *)
Theorem store_errors_returned {St : Type} (h : handler St) (s : St)
  (r : RedisRepository) (op : operation) (en : entry) (e : redis.Error) :
  In en (log (run h (exec r op) s)) ->
  reported en = Some e ->
  returnedFor (primitiveOf en) e (result (run h (exec r op) s)).
Proof.
  destruct op as [id v | id um | id v | id | pat | q off lim sb sd
                 | id ttl | id | ch msg | | ]; cbn [exec].
  - unfold Create. destruct (identifierToKey r id) as [key|err];
      [|cbn; intros []].
    run_call h (redis.Exists key) s. destruct x as [n [err|]]; cbn.
    + intros [<-|[]]. cbn. now intros [= ->].
    + destruct (n =? 1)%Z; cbn.
      * intros [<-|[]]. cbn. discriminate.
      * destruct (h _ (redis.JSONSet key "$" v) s0) as [y s1]. cbn.
        intros [<-|[<-|[]]]; cbn; [discriminate | auto].
  - unfold Read. destruct (identifierToKey r id) as [key|err];
      [|cbn; intros []].
    run_call h (redis.JSONGet key "$") s. destruct x as [d [err|]]; cbn.
    + destruct (redis.isNil err) eqn:En; cbn;
        intros [<-|[]]; cbn; intros [= ->]; now rewrite En.
    + intros [<-|[]]. cbn. discriminate.
  - unfold Update. destruct (identifierToKey r id) as [key|err];
      [|cbn; intros []].
    run_call h (redis.Exists key) s. destruct x as [n [err|]]; cbn.
    + intros [<-|[]]. cbn. now intros [= ->].
    + destruct (n =? 0)%Z; cbn.
      * intros [<-|[]]. cbn. discriminate.
      * destruct (h _ (redis.JSONSet key "$" v) s0) as [y s1]. cbn.
        intros [<-|[<-|[]]]; cbn; [discriminate | auto].
  - unfold Delete. destruct (identifierToKey r id) as [key|err];
      [|cbn; intros []].
    run_call h (redis.Del key) s. destruct x as [n [err|]]; cbn.
    + intros [<-|[]]. cbn. now intros [= ->].
    + destruct (n =? 0)%Z; cbn; intros [<-|[]]; cbn; discriminate.
  - unfold List. destruct (identifierToKey r pat) as [key|err];
      [|cbn; intros []].
    run_call h (redis.Keys (key ++ "*")) s. destruct x as [ks [err|]]; cbn.
    + intros [<-|[]]. cbn. now intros [= ->].
    + intros [<-|[]]. cbn. discriminate.
  - unfold Search. cbv zeta. fold (searchArgs r q off lim sb sd).
    run_call h (redis.Do (searchArgs r q off lim sb sd)) s.
    destruct x as [res [err|]].
    + cbn. intros [<-|[]]. cbn. now intros [= ->].
    + intros Hin Hrep. exfalso.
      assert (Hlog : In en [Called (redis.Do (searchArgs r q off lim sb sd))
                              (res, None)]).
      { revert Hin. destruct res as [n|n|t|[|[n|n|t|l'|] l]|]; cbn; auto.
        destruct (n =? 0)%Z; cbn; auto.
        destruct ((n <? 0)%Z || (maxSliceCap <? n)%Z); cbn; auto. }
      destruct Hlog as [<-|[]]. cbn in Hrep. discriminate.
  - unfold AcquireLock. destruct (identifierToKey r id) as [key|err];
      [|cbn; intros []].
    run_call h (redis.SetNX (lockKeyOf r key) (AnyInt 1) ttl) s.
    destruct x as [b [err|]]; cbn.
    + intros [<-|[]]. cbn. now intros [= ->].
    + intros [<-|[]]. cbn. discriminate.
  - unfold ReleaseLock. destruct (identifierToKey r id) as [key|err];
      [|cbn; intros []].
    run_call h (redis.Del (lockKeyOf r key)) s. destruct x as [n [err|]]; cbn.
    + intros [<-|[]]. cbn. now intros [= ->].
    + destruct (n =? 0)%Z; cbn; intros [<-|[]]; cbn; discriminate.
  - unfold Publish.
    run_call h (redis.Publish
                  (prefix r ++ separator r ++ KeyPartPubSubChannel
                   ++ separator r ++ ch) msg) s.
    cbn. intros [<-|[]]. cbn. now intros ->.
  - unfold Ping. run_call h redis.Ping s.
    cbn. intros [<-|[]]. cbn. now intros ->.
  - unfold Close. run_call h redis.Close s.
    cbn. intros [<-|[]]. cbn. now intros ->.
Qed.

Lemma store_errors_returned_witness :
  result (run (scripted unreachable)
            (exec defaultRepository
               (OpCreate (RedisIdentifier "user" "42") (AnyString "{}"))) tt)
  = Some (Some (Errorf_w_v (New ErrOperationFailed) (Client refused))).
Proof.
  apply (store_errors_returned (scripted unreachable) tt defaultRepository
           (OpCreate (RedisIdentifier "user" "42") (AnyString "{}"))
           (Called (redis.Exists "app:user:42") (0%Z, Some refused))
           refused).
  - left. reflexivity.
  - reflexivity.
Defined.

(** C5 fails as stated: the error the store reports to [Publish] comes back
    as it is, and it is not an [ErrOperationFailed]. *)
Lemma Publish_error_not_wrapped :
  let op := OpPublish "news" (AnyString "hello") in
  let e := run (scripted unreachable) (exec defaultRepository op) tt in
  log e = [Called (redis.Publish "app:channel:news" (AnyString "hello"))
             (Some refused)] /\
  result e = Some (Some (Client refused)) /\
  errorsIs (Client refused) ErrOperationFailed = false /\
  ~ WrapsStoreErrors defaultRepository op.
Proof.
  cbv zeta. split; [reflexivity|]. split; [reflexivity|].
  split; [reflexivity|].
  intros H.
  destruct (H unit (scripted unreachable) tt
              (Called (redis.Publish "app:channel:news" (AnyString "hello"))
                 (Some refused))
              refused) as (err & Hres & His).
  - left. reflexivity.
  - reflexivity.
  - cbn in Hres. injection Hres as <-. discriminate.
Qed.

(** What [Create] and [Update] return when the document set reports an
    error after a successful existence probe. *)
Example Create_set_error :
  let h := scripted {| onExists := (0%Z, None); onJSONSet := Some refused;
                       onJSONGet := ("{}", None); onDel := (0%Z, None);
                       onKeys := ([], None); onDo := (AnyOther, None);
                       onSetNX := (true, None); onPublish := None;
                       onPing := None; onClose := None |} in
  result (run h (Create defaultRepository (RedisIdentifier "user" "42")
                   (AnyString "{}")) tt)
  = Some (Some (Client refused)).
Proof. reflexivity. Qed.

(** The repository built from an empty configuration has the default prefix
    and separator. *)
Lemma NewRedisRepository_defaults (c : RedisConfig) :
  KeyPrefix c = "" -> KeySeparator c = "" ->
  NewRedisRepository (ConfigRedis c) = inl defaultRepository.
Proof. intros Hp Hs. unfold NewRedisRepository. now rewrite Hp, Hs. Qed.

(** The separator of a repository built by [NewRedisRepository] is never
    empty, so [strings.Split] never explodes a key. *)
Lemma NewRedisRepository_separator (config : Config) (r : RedisRepository) :
  NewRedisRepository config = inl r ->
  prefix r <> "" /\ separator r <> "".
Proof.
  destruct config as [c|]; simpl; [|discriminate].
  intros [= <-]. simpl. split.
  - destruct (String.eqb_spec (KeyPrefix c) ""); [discriminate | assumption].
  - destruct (String.eqb_spec (KeySeparator c) ""); [discriminate | assumption].
Qed.

(** * Further properties of the codec *)

Lemma inClass_entityPrefixHead (c : ascii) :
  inClass entityPrefixHead c = true <-> isLetter c.
Proof.
  unfold inClass, entityPrefixHead, isLetter.
  cbn [existsb]. rewrite !orb_true_iff, !inRange_iff.
  change (nat_of_ascii "a") with 97. change (nat_of_ascii "z") with 122.
  change (nat_of_ascii "A") with 65. change (nat_of_ascii "Z") with 90.
  intuition discriminate.
Qed.

Lemma inClass_entityPrefixTail (c : ascii) :
  inClass entityPrefixTail c = true <-> EntityPrefixChar c.
Proof.
  unfold inClass, entityPrefixTail, EntityPrefixChar, isLetter, isDigit.
  cbn [existsb]. rewrite !orb_true_iff, !inRange_single, !inRange_iff.
  change (nat_of_ascii "a") with 97. change (nat_of_ascii "z") with 122.
  change (nat_of_ascii "A") with 65. change (nat_of_ascii "Z") with 90.
  change (nat_of_ascii "0") with 48. change (nat_of_ascii "9") with 57.
  intuition discriminate.
Qed.

(** X1: [validateEntityPrefix] accepts exactly the texts that start with a
    letter and go on with letters, digits and underscores; every other
    text, the empty one included, gets [ErrInvalidEntityPrefix], bare. *)
Theorem validateEntityPrefix_grammar (r : RedisRepository) (s : string) :
  (validateEntityPrefix r s = None <->
   exists c rest,
     s = String c rest /\ isLetter c /\
     Forall EntityPrefixChar (list_ascii_of_string rest)) /\
  (validateEntityPrefix r s = None \/
   validateEntityPrefix r s = Some (New ErrInvalidEntityPrefix)).
Proof.
  unfold validateEntityPrefix, entityPrefixRegex.
  rewrite MatchString_Cat_Class. split.
  - destruct s as [|c rest].
    + simpl. split; [discriminate | intros (c & rest & H & _); discriminate].
    + rewrite MatchString_Star_Class.
      destruct (inClass entityPrefixHead c) eqn:Eh;
        destruct (forallb (inClass entityPrefixTail)
                    (list_ascii_of_string rest)) eqn:Et; simpl.
      * split; [intros _ | reflexivity].
        exists c, rest. split; [reflexivity|].
        split; [now apply inClass_entityPrefixHead|].
        rewrite forallb_forall in Et. apply Forall_forall.
        intros x Hx. apply inClass_entityPrefixTail. auto.
      * split; [discriminate|].
        intros (c' & rest' & [= <- <-] & _ & Hall).
        assert (Ht : forallb (inClass entityPrefixTail)
                       (list_ascii_of_string rest) = true).
        { apply forallb_forall. intros x Hx.
          apply inClass_entityPrefixTail.
          rewrite Forall_forall in Hall. auto. }
        congruence.
      * split; [discriminate|].
        intros (c' & rest' & [= <- <-] & Hl & _).
        apply inClass_entityPrefixHead in Hl. congruence.
      * split; [discriminate|].
        intros (c' & rest' & [= <- <-] & Hl & _).
        apply inClass_entityPrefixHead in Hl. congruence.
  - destruct s as [|c rest]; [right; reflexivity|].
    destruct (inClass entityPrefixHead c && _); [left | right]; reflexivity.
Qed.

Lemma OnlyKind_New (s : sentinel) : OnlyKind (New s) s.
Proof. intros t. destruct s, t; simpl; split; intros; (reflexivity || discriminate). Qed.

Lemma OnlyKind_Errorf_w (s : sentinel) (text : string) :
  OnlyKind (Errorf_w (New s) text) s.
Proof. exact (OnlyKind_New s). Qed.

(** A key that starts with the prefix and the separator is never refused
    for its prefix. *)
Lemma validateKey_prefixed_kinds (r : RedisRepository) (k : string) (e : error) :
  PrefixOk r k ->
  validateKey r k = Some e ->
  exists s,
    OnlyKind e s /\
    In s [ErrInvalidKeyLength; ErrInvalidKeyChars;
          ErrInvalidKeySuffix; ErrEmptyKeyPart].
Proof.
  intros HP. apply prefixCheck_iff in HP. unfold validateKey. rewrite HP.
  destruct ((String.length k <? MinKeyLength)%nat
            || (MaxKeyLength <? String.length k)%nat).
  { intros [= <-]. eexists. split; [apply OnlyKind_Errorf_w | simpl; auto]. }
  destruct (MatchString validKeyRegex k); simpl.
  2:{ intros [= <-]. eexists. split; [apply OnlyKind_Errorf_w | simpl; auto]. }
  destruct ((List.length (strings.Split k (separator r)) <? 2)%nat
            || String.eqb (nth 1 (strings.Split k (separator r)) "") "").
  { intros [= <-]. eexists. split; [apply OnlyKind_Errorf_w | simpl; auto]. }
  destruct (existsb (fun part => String.eqb part "")
              (strings.Split k (separator r))); [|discriminate].
  intros [= <-]. eexists. split; [apply OnlyKind_New | simpl; auto].
Qed.

(** X2: an identifier that is not rendered is refused with an error of
    exactly one kind, and the kind is one of six: invalid entity prefix,
    unsupported identifier, or a key refused for its length, its
    characters, its second part or an empty part.  The rendered text always
    starts with the prefix and the separator, so [ErrInvalidKeyPrefix]
    (like [ErrInvalidKeyFormat]) never comes out of [identifierToKey]. *)
Theorem identifierToKey_error_kinds (r : RedisRepository)
  (id : EntityIdentifier) (e : error) :
  identifierToKey r id = inr e ->
  exists s,
    OnlyKind e s /\
    In s [ErrInvalidEntityPrefix; ErrUnsupportedIdentifier;
          ErrInvalidKeyLength; ErrInvalidKeyChars;
          ErrInvalidKeySuffix; ErrEmptyKeyPart] /\
    errorsIs e ErrInvalidKeyPrefix = false /\
    errorsIs e ErrInvalidKeyFormat = false.
Proof.
  assert (Hcreate : forall x xs (e' : error),
             createKey r (x :: xs) = inr e' ->
             exists s, OnlyKind e' s /\
                       In s [ErrInvalidKeyLength; ErrInvalidKeyChars;
                             ErrInvalidKeySuffix; ErrEmptyKeyPart]).
  { intros x xs e' H. unfold createKey in H.
    destruct (validateKey r (strings.Join (prefix r :: x :: xs) (separator r)))
      as [err|] eqn:V; [|discriminate].
    injection H as <-.
    refine (validateKey_prefixed_kinds r _ err _ V).
    exists (strings.Join (x :: xs) (separator r)). reflexivity. }
  assert (Hfin : forall s,
             OnlyKind e s ->
             In s [ErrInvalidEntityPrefix; ErrUnsupportedIdentifier;
                   ErrInvalidKeyLength; ErrInvalidKeyChars;
                   ErrInvalidKeySuffix; ErrEmptyKeyPart] ->
             errorsIs e ErrInvalidKeyPrefix = false /\
             errorsIs e ErrInvalidKeyFormat = false).
  { intros s Hs Hin. split.
    - destruct (errorsIs e ErrInvalidKeyPrefix) eqn:E; [|reflexivity].
      apply Hs in E. subst s. simpl in Hin. intuition discriminate.
    - destruct (errorsIs e ErrInvalidKeyFormat) eqn:E; [|reflexivity].
      apply Hs in E. subst s. simpl in Hin. intuition discriminate. }
  intros H.
  assert (Hs : exists s,
             OnlyKind e s /\
             In s [ErrInvalidEntityPrefix; ErrUnsupportedIdentifier;
                   ErrInvalidKeyLength; ErrInvalidKeyChars;
                   ErrInvalidKeySuffix; ErrEmptyKeyPart]).
  { destruct id as [ep i | s |]; simpl in H.
    - unfold validateEntityPrefix in H.
      destruct (MatchString entityPrefixRegex ep); simpl in H.
      + destruct (Hcreate _ _ _ H) as (s & Hk & Hin).
        exists s. split; [exact Hk|]. simpl in *. tauto.
      + injection H as <-. exists ErrInvalidEntityPrefix.
        split; [apply OnlyKind_New | simpl; auto].
    - destruct (Hcreate _ _ _ H) as (k & Hk & Hin).
      exists k. split; [exact Hk|]. simpl in *. tauto.
    - injection H as <-. exists ErrUnsupportedIdentifier.
      split; [apply OnlyKind_New | simpl; auto]. }
  destruct Hs as (s & Hk & Hin). exists s.
  split; [exact Hk|]. split; [exact Hin|]. now apply (Hfin s).
Qed.

Lemma identifierToKey_error_kinds_witness :
  exists s,
    OnlyKind (New ErrInvalidEntityPrefix) s /\
    In s [ErrInvalidEntityPrefix; ErrUnsupportedIdentifier;
          ErrInvalidKeyLength; ErrInvalidKeyChars;
          ErrInvalidKeySuffix; ErrEmptyKeyPart] /\
    errorsIs (New ErrInvalidEntityPrefix) ErrInvalidKeyPrefix = false /\
    errorsIs (New ErrInvalidEntityPrefix) ErrInvalidKeyFormat = false.
Proof.
  apply (identifierToKey_error_kinds defaultRepository
           (RedisIdentifier "1user" "42")).
  reflexivity.
Defined.

(** The entity prefix is checked before the key: a composite identifier
    with a bad entity prefix and an empty id is refused for the former. *)
Example identifierToKey_entity_prefix_first :
  identifierToKey defaultRepository (RedisIdentifier "1user" "")
  = inr (New ErrInvalidEntityPrefix) /\
  identifierToKey defaultRepository (RedisIdentifier "user" "")
  = inr (New ErrEmptyKeyPart) /\
  identifierToKey defaultRepository (SimpleIdentifier "")
  = inr (Errorf_w (New ErrInvalidKeyLength)
           ": key length must be between 5 and 256 characters").
Proof. repeat split. Qed.

Lemma Forall_Split_not_empty (r : RedisRepository) (p : string) :
  Forall (fun q => q <> "") (strings.Split p (separator r)) ->
  separator r <> "" -> p <> "".
Proof.
  intros H Hs ->. unfold strings.Split in H.
  destruct (separator r); [congruence|].
  simpl in H. inversion H; congruence.
Qed.

(** X3: with a one-character separator, an identifier is only rendered
    when none of its texts is empty, starts or ends with the separator or
    has two separators in a row: splitting any of them on the separator
    gives no empty piece. *)
Theorem identifierToKey_parts_not_empty (r : RedisRepository) (c : ascii)
  (id : EntityIdentifier) (key : string) :
  separator r = String c "" ->
  identifierToKey r id = inl key ->
  Forall (fun p => p <> "" /\
                   Forall (fun q => q <> "") (strings.Split p (separator r)))
    (identifierParts id).
Proof.
  intros Es Hk.
  assert (Hne : separator r <> "") by (rewrite Es; discriminate).
  destruct (identifierToKey_inl r id key Hk) as [V Hshape].
  apply validateKey_checks in V.
  destruct V as (_ & _ & _ & _ & HN). unfold NoEmptyPart in HN.
  assert (Hpart : forall p,
             Forall (fun q => q <> "") (strings.Split p (separator r)) ->
             p <> "" /\
             Forall (fun q => q <> "") (strings.Split p (separator r))).
  { intros p H. split; [|exact H]. now apply (Forall_Split_not_empty r). }
  destruct id as [ep i | s |]; simpl; [| |contradiction].
  - destruct Hshape as [_ ->].
    rewrite (Split_single_app r c _ _ Es), (Split_single_app r c _ _ Es) in HN.
    apply Forall_app in HN. destruct HN as [_ HN].
    apply Forall_app in HN. destruct HN as [Hep Hi].
    repeat constructor; apply Hpart; assumption.
  - subst key. rewrite (Split_single_app r c _ _ Es) in HN.
    apply Forall_app in HN. destruct HN as [_ Hs].
    repeat constructor; apply Hpart; assumption.
Qed.

Lemma identifierToKey_parts_not_empty_witness :
  Forall (fun p => p <> "" /\
                   Forall (fun q => q <> "")
                     (strings.Split p (separator defaultRepository)))
    (identifierParts (RedisIdentifier "user" "42")).
Proof.
  apply (identifierToKey_parts_not_empty defaultRepository ":"%char
           (RedisIdentifier "user" "42") "app:user:42").
  - reflexivity.
  - reflexivity.
Defined.

(** X4: rendering does not tell the two identifier types apart.  For an
    entity prefix that passes its grammar, the composite identifier
    [{ep, id}] and the simple identifier [ep + separator + id] are rendered
    alike, to the same key or to the same error; and, with a one-character
    separator, the key of any simple identifier that contains the
    separator is decoded as a composite identifier, never as the simple
    identifier it came from. *)
Theorem identifierToKey_simple_composite_alias (r : RedisRepository) :
  (forall ep i,
      validateEntityPrefix r ep = None ->
      identifierToKey r (SimpleIdentifier (ep ++ separator r ++ i))
      = identifierToKey r (RedisIdentifier ep i)) /\
  (forall c s key,
      separator r = String c "" ->
      Contains s (separator r) ->
      identifierToKey r (SimpleIdentifier s) = inl key ->
      exists a b, keyToIdentifier r key = inl (RedisIdentifier a b)).
Proof.
  split.
  - intros ep i H. simpl. rewrite H. reflexivity.
  - intros c s key Es (a & b & ->) Hk.
    destruct (identifierToKey_inl r _ key Hk) as [V ->].
    destruct (validateKey_parts r _ V) as (p0 & p1 & ps & E).
    assert (Hlen : 3 <= List.length (p0 :: p1 :: ps)).
    { rewrite <- E.
      rewrite (Split_single_app r c _ _ Es), (Split_single_app r c _ _ Es).
      rewrite !length_app.
      assert (Hn : forall x, 1 <= List.length (strings.Split x (separator r))).
      { intros x. rewrite Es.
        pose proof (splitFrom_not_nil (String c "") 0 x) as Hx.
        unfold strings.Split.
        destruct (strings.splitFrom (String c "") 0 x);
          [contradiction | simpl; lia]. }
      pose proof (Hn (prefix r)). pose proof (Hn a). pose proof (Hn b). lia. }
    destruct ps as [|p2 more]; [simpl in Hlen; lia|].
    destruct (keyToIdentifier_valid r _ p0 p1 (p2 :: more) V E) as [_ Hid].
    exists p1, p2. exact Hid.
Qed.

Lemma identifierToKey_simple_composite_alias_witness :
  identifierToKey defaultRepository
    (SimpleIdentifier ("user" ++ separator defaultRepository ++ "42"))
  = identifierToKey defaultRepository (RedisIdentifier "user" "42") /\
  exists a b,
    keyToIdentifier defaultRepository "app:user:42"
    = inl (RedisIdentifier a b).
Proof.
  destruct (identifierToKey_simple_composite_alias defaultRepository)
    as [Halias Hdecode].
  split.
  - apply (Halias "user" "42"). reflexivity.
  - apply (Hdecode ":"%char "user:42" "app:user:42").
    + reflexivity.
    + exists "user", "42". reflexivity.
    + reflexivity.
Defined.

Lemma append_inv_head (a x y : string) : a ++ x = a ++ y -> x = y.
Proof.
  induction a as [|c a IH]; simpl; [auto|].
  intros [= H]. auto.
Qed.

Lemma first_separator_unique (c : ascii) (a1 b1 a2 b2 : string) :
  ~ In c (list_ascii_of_string a1) ->
  ~ In c (list_ascii_of_string a2) ->
  a1 ++ String c b1 = a2 ++ String c b2 ->
  a1 = a2 /\ b1 = b2.
Proof.
  revert a2. induction a1 as [|x a1 IH]; intros a2 H1 H2 E.
  - destruct a2 as [|y a2]; simpl in E.
    + injection E as ->. auto.
    + injection E as <- _. elim H2. now left.
  - destruct a2 as [|y a2]; simpl in E.
    + injection E as -> _. elim H1. now left.
    + injection E as -> E.
      destruct (IH a2) as [-> ->]; auto.
      * intros H. apply H1. now right.
      * intros H. apply H2. now right.
Qed.

(** X5: with a one-character separator, two identifiers of the supported
    types whose texts contain no separator are rendered to the same key
    only when they are the same identifier. *)
Theorem identifierToKey_injective (r : RedisRepository) (c : ascii)
  (id1 id2 : EntityIdentifier) (key : string) :
  separator r = String c "" ->
  PartsSeparatorFree r id1 ->
  PartsSeparatorFree r id2 ->
  identifierToKey r id1 = inl key ->
  identifierToKey r id2 = inl key ->
  id1 = id2.
Proof.
  intros Es F1 F2 H1 H2.
  destruct (identifierToKey_inl r id1 key H1) as [_ S1].
  destruct (identifierToKey_inl r id2 key H2) as [_ S2].
  destruct id1 as [ep1 i1 | s1 |]; [| |contradiction];
    destruct id2 as [ep2 i2 | s2 |]; try contradiction;
    simpl in F1, F2.
  - destruct S1 as [_ E1]. destruct S2 as [_ E2]. rewrite E1 in E2.
    apply append_inv_head, append_inv_head in E2.
    destruct F1 as [F1 _]. destruct F2 as [F2 _].
    unfold SeparatorFree in F1, F2. rewrite Es in *.
    rewrite Contains_single in F1, F2.
    destruct (first_separator_unique c ep1 i1 ep2 i2 F1 F2 E2) as [-> ->].
    reflexivity.
  - destruct S1 as [_ E1]. rewrite E1 in S2.
    apply append_inv_head, append_inv_head in S2.
    elim F2. exists ep1, i1. now rewrite <- S2.
  - destruct S2 as [_ E2]. rewrite S1 in E2.
    apply append_inv_head, append_inv_head in E2.
    elim F1. exists ep2, i2. exact E2.
  - rewrite S1 in S2. apply append_inv_head, append_inv_head in S2.
    now subst.
Qed.

Lemma identifierToKey_injective_witness :
  RedisIdentifier "user" "42" = RedisIdentifier "user" "42".
Proof.
  apply (identifierToKey_injective defaultRepository ":"%char
           (RedisIdentifier "user" "42") (RedisIdentifier "user" "42")
           "app:user:42").
  - reflexivity.
  - split; apply SeparatorFree_default; simpl; intuition discriminate.
  - split; apply SeparatorFree_default; simpl; intuition discriminate.
  - reflexivity.
  - reflexivity.
Defined.

Lemma concat_cons (sep x : string) (l : list string) :
  l <> [] -> String.concat sep (x :: l) = x ++ sep ++ String.concat sep l.
Proof. destruct l; [congruence | reflexivity]. Qed.

(** Joining what a one-character separator split gives the text back. *)
Lemma Join_Split_single (c : ascii) (s : string) :
  strings.Join (strings.Split s (String c "")) (String c "") = s.
Proof.
  unfold strings.Join, strings.Split.
  induction s as [|x s IH]; [reflexivity|].
  cbn [strings.splitFrom].
  pose proof (splitFrom_not_nil (String c "") 0 s) as Hn.
  destruct (String.prefix (String c "") (String x s)) eqn:E.
  - apply prefix_single in E. subst x.
    cbn [String.length Nat.sub].
    rewrite concat_cons by assumption. rewrite IH. reflexivity.
  - destruct (strings.splitFrom (String c "") 0 s) as [|p ps] eqn:Es;
      [contradiction|].
    destruct ps as [|q qs].
    + simpl in *. now rewrite IH.
    + rewrite concat_cons by discriminate.
      rewrite concat_cons in IH by discriminate.
      cbn [append] in IH |- *. now rewrite IH.
Qed.

Lemma keyToIdentifier_inl_valid (r : RedisRepository) (k : string)
  (id : EntityIdentifier) :
  keyToIdentifier r k = inl id -> validateKey r k = None.
Proof.
  unfold keyToIdentifier, parseKey.
  destruct (validateKey r k); [discriminate | reflexivity].
Qed.

(** The first part of a valid key is the prefix when the prefix holds no
    separator. *)
Lemma valid_key_first_part (r : RedisRepository) (c : ascii) (k p0 : string)
  (ps : list string) :
  separator r = String c "" ->
  SeparatorFree r (prefix r) ->
  validateKey r k = None ->
  strings.Split k (separator r) = p0 :: ps ->
  p0 = prefix r /\ k = strings.Join (prefix r :: ps) (separator r).
Proof.
  intros Es Hp V E.
  assert (HP : PrefixOk r k) by (apply validateKey_checks in V; apply V).
  destruct HP as [rest Hrest].
  assert (E' := E). rewrite Hrest in E'.
  rewrite (Split_single_app r c _ _ Es), (Split_single_free r c) in E'
    by assumption.
  injection E' as <- E'. split; [reflexivity|].
  rewrite <- E. rewrite Es. symmetry. apply Join_Split_single.
Qed.

(** X6: with a one-character separator that the prefix does not contain,
    the identifier decoded from a key is rendered back to that key when
    the key has at most two parts after the prefix (and, for two, the
    first passes the entity-prefix grammar); a key with more parts is
    never what its decoded identifier renders. *)
Theorem keyToIdentifier_rerender (r : RedisRepository) (c : ascii)
  (k : string) (id : EntityIdentifier) :
  separator r = String c "" ->
  SeparatorFree r (prefix r) ->
  keyToIdentifier r k = inl id ->
  (List.length (strings.Split k (separator r)) <= 3 ->
   (forall ep i, id = RedisIdentifier ep i ->
                 validateEntityPrefix r ep = None) ->
   identifierToKey r id = inl k) /\
  (3 < List.length (strings.Split k (separator r)) ->
   identifierToKey r id <> inl k).
Proof.
  intros Es Hp Hid.
  pose proof (keyToIdentifier_inl_valid r k id Hid) as V.
  destruct (validateKey_parts r k V) as (p0 & p1 & ps & E).
  destruct (valid_key_first_part r c k p0 (p1 :: ps) Es Hp V E) as [-> Hk].
  destruct (keyToIdentifier_valid r k (prefix r) p1 ps V E) as [_ Hid'].
  rewrite Hid in Hid'. injection Hid' as ->.
  rewrite E. split.
  - intros Hlen Hgram.
    destruct ps as [|p2 [|p3 ps]]; [| |simpl in Hlen; lia].
    + simpl. unfold createKey. rewrite <- Hk, V. reflexivity.
    + simpl. rewrite (Hgram p1 p2 eq_refl).
      unfold createKey. rewrite <- Hk, V. reflexivity.
  - intros Hlen.
    destruct ps as [|p2 [|p3 ps]]; [simpl in Hlen; lia | simpl in Hlen; lia |].
    intros H. apply identifierToKey_inl in H. destruct H as [_ [_ H]].
    rewrite Hk in H. unfold strings.Join in H. cbn [String.concat] in H.
    apply append_inv_head, append_inv_head, append_inv_head,
      append_inv_head in H.
    apply (f_equal String.length) in H.
    rewrite !length_append in H.
    rewrite Es in H. simpl in H. lia.
Qed.

Lemma keyToIdentifier_rerender_witness :
  (List.length (strings.Split "app:user:42" (separator defaultRepository))
   <= 3 ->
   (forall ep i, RedisIdentifier "user" "42" = RedisIdentifier ep i ->
                 validateEntityPrefix defaultRepository ep = None) ->
   identifierToKey defaultRepository (RedisIdentifier "user" "42")
   = inl "app:user:42") /\
  (3 < List.length (strings.Split "app:user:42"
                      (separator defaultRepository)) ->
   identifierToKey defaultRepository (RedisIdentifier "user" "42")
   <> inl "app:user:42").
Proof.
  apply (keyToIdentifier_rerender defaultRepository ":"%char "app:user:42"
           (RedisIdentifier "user" "42")).
  - reflexivity.
  - apply SeparatorFree_default. simpl. intuition discriminate.
  - reflexivity.
Defined.

(** X7: a key whose first part after the prefix does not pass the
    entity-prefix grammar and which has two parts or more after the prefix
    is decoded to a composite identifier that [identifierToKey] refuses
    with [ErrInvalidEntityPrefix]: the enumerations can hand out
    identifiers that no operation accepts. *)
Theorem keyToIdentifier_unrenderable (r : RedisRepository) (k p0 p1 p2 : string)
  (ps : list string) :
  validateKey r k = None ->
  strings.Split k (separator r) = p0 :: p1 :: p2 :: ps ->
  validateEntityPrefix r p1 <> None ->
  keyToIdentifier r k = inl (RedisIdentifier p1 p2) /\
  identifierToKey r (RedisIdentifier p1 p2) = inr (New ErrInvalidEntityPrefix) /\
  forall identifiers,
    appendDecoded r identifiers k
    = (identifiers ++ [RedisIdentifier p1 p2])%list.
Proof.
  intros V E Hg.
  destruct (keyToIdentifier_valid r k p0 p1 (p2 :: ps) V E) as [_ Hid].
  split; [exact Hid|]. split.
  - simpl. unfold validateEntityPrefix in *.
    destruct (MatchString entityPrefixRegex p1); simpl in *;
      [congruence | reflexivity].
  - intros ids. unfold appendDecoded. now rewrite V, Hid.
Qed.

Lemma keyToIdentifier_unrenderable_witness :
  keyToIdentifier defaultRepository "app:1:2" = inl (RedisIdentifier "1" "2") /\
  identifierToKey defaultRepository (RedisIdentifier "1" "2")
  = inr (New ErrInvalidEntityPrefix) /\
  forall identifiers,
    appendDecoded defaultRepository identifiers "app:1:2"
    = (identifiers ++ [RedisIdentifier "1" "2"])%list.
Proof.
  apply (keyToIdentifier_unrenderable defaultRepository "app:1:2"
           "app" "1" "2" []).
  - reflexivity.
  - reflexivity.
  - discriminate.
Defined.

(** X8: lock keys live among the data keys.  With a one-character
    separator that is not a letter of [lock], when [id] is rendered as
    [key] and the lock key fits the maximal length, the lock key of [id]
    is the very key of another identifier: [id] with the separator and
    [lock] added to its last text. *)
Theorem lock_key_is_a_data_key (r : RedisRepository) (c : ascii)
  (id : EntityIdentifier) (key : string) :
  separator r = String c "" ->
  ~ In c (list_ascii_of_string KeyPartLock) ->
  identifierToKey r id = inl key ->
  String.length key + String.length (separator r)
  + String.length KeyPartLock <= MaxKeyLength ->
  lockIdentifier r id <> id /\
  identifierToKey r (lockIdentifier r id) = inl (lockKeyOf r key).
Proof.
  intros Es Hc Hk Hlen.
  destruct (identifierToKey_inl r id key Hk) as [V Hshape].
  assert (VL : validateKey r (lockKeyOf r key) = None).
  { apply validateKey_checks. apply (lockKey_ValidKey r c); auto.
    now apply validateKey_checks. }
  assert (Hgrow : forall s, s ++ separator r ++ KeyPartLock <> s).
  { intros s H. apply (f_equal String.length) in H.
    rewrite !length_append in H. simpl in H. lia. }
  destruct id as [ep i | s |]; [| |contradiction].
  - destruct Hshape as [Hep ->]. split.
    + simpl. intros [= H]. now apply Hgrow in H.
    + simpl. unfold validateEntityPrefix. rewrite Hep. simpl.
      unfold createKey, strings.Join. cbn [String.concat].
      unfold lockKeyOf in VL. rewrite !append_assoc in VL.
      rewrite VL. unfold lockKeyOf. now rewrite !append_assoc.
  - subst key. split.
    + simpl. intros [= H]. now apply Hgrow in H.
    + simpl. unfold createKey, strings.Join. cbn [String.concat].
      unfold lockKeyOf in VL. rewrite !append_assoc in VL.
      rewrite VL. unfold lockKeyOf. now rewrite !append_assoc.
Qed.

Lemma lock_key_is_a_data_key_witness :
  lockIdentifier defaultRepository (RedisIdentifier "user" "42")
  <> RedisIdentifier "user" "42" /\
  identifierToKey defaultRepository
    (lockIdentifier defaultRepository (RedisIdentifier "user" "42"))
  = inl (lockKeyOf defaultRepository "app:user:42").
Proof.
  apply (lock_key_is_a_data_key defaultRepository ":"%char
           (RedisIdentifier "user" "42") "app:user:42").
  - reflexivity.
  - simpl. intuition discriminate.
  - reflexivity.
  - simpl. unfold MaxKeyLength. lia.
Defined.

(** * Further properties of the operations *)

Lemma OnlyKind_Errorf_w_v (s : sentinel) (v : error) :
  OnlyKind (Errorf_w_v (New s) v) s.
Proof. exact (OnlyKind_New s). Qed.

(** X9: an operation called with an identifier that is not rendered
    returns at once: it makes no call to the store, leaves the store as it
    is, and its error is [ErrInvalidIdentifier] formatted with the cause.
    The cause is formatted with [%v], so the error matches
    [ErrInvalidIdentifier] under [errors.Is] and no other sentinel, the
    kind of the cause included. *)
Theorem invalid_identifier_no_call {St : Type} (h : handler St) (s : St)
  (r : RedisRepository) (op : operation) (id : EntityIdentifier)
  (err : error) :
  identifierOf op = Some id ->
  identifierToKey r id = inr err ->
  let e := run h (exec r op) s in
  result e = Some (Some (invalidIdentifier err)) /\
  log e = [] /\
  final e = s /\
  OnlyKind (invalidIdentifier err) ErrInvalidIdentifier.
Proof.
  intros Hop Hid.
  assert (Hk : OnlyKind (invalidIdentifier err) ErrInvalidIdentifier)
    by apply OnlyKind_Errorf_w_v.
  destruct op; simpl in Hop; try discriminate; injection Hop as ->;
    cbn [exec];
    unfold Create, Read, Update, Delete, List, AcquireLock, ReleaseLock;
    rewrite Hid; cbn; auto.
Qed.

Lemma invalid_identifier_no_call_witness :
  let e := run (scripted quiet)
             (exec defaultRepository
                (OpDelete (RedisIdentifier "1user" "42"))) tt in
  result e = Some (Some (invalidIdentifier (New ErrInvalidEntityPrefix))) /\
  log e = [] /\
  final e = tt /\
  OnlyKind (invalidIdentifier (New ErrInvalidEntityPrefix))
    ErrInvalidIdentifier.
Proof.
  apply (invalid_identifier_no_call (scripted quiet) tt defaultRepository
           (OpDelete (RedisIdentifier "1user" "42"))
           (RedisIdentifier "1user" "42") (New ErrInvalidEntityPrefix)).
  - reflexivity.
  - reflexivity.
Defined.

(** X10: [Update] probes the key and goes by the answer: on 0 it returns
    [ErrNotFound] after that one call, writing nothing; on any other count
    it sets the document at the root path of the same key, once, and
    returns the error of that call as it is. *)
Theorem Update_by_probe {St : Type} (h : handler St) (s s1 : St)
  (r : RedisRepository) (identifier : EntityIdentifier) (value : any)
  (key : string) (n : Z) :
  identifierToKey r identifier = inl key ->
  h _ (redis.Exists key) s = ((n, None), s1) ->
  let e := run h (Update r identifier value) s in
  (n = 0%Z ->
   result e = Some (Some (New ErrNotFound)) /\
   log e = [Called (redis.Exists key) (n, None)] /\
   final e = s1) /\
  (n <> 0%Z ->
   forall w s2,
     h _ (redis.JSONSet key "$" value) s1 = (w, s2) ->
     result e = Some (asError w) /\
     log e = [Called (redis.Exists key) (n, None);
              Called (redis.JSONSet key "$" value) w] /\
     final e = s2).
Proof.
  intros Hk Hh. unfold Update. rewrite Hk. cbn [run]. rewrite Hh.
  cbv zeta. split.
  - intros ->. cbn. auto.
  - intros Hn w s2 Hw. destruct (Z.eqb_spec n 0) as [|_]; [contradiction|].
    cbn [run result log final]. rewrite Hw. cbn. auto.
Qed.

Lemma Update_by_probe_witness :
  let e := run (scripted quiet)
             (Update defaultRepository (RedisIdentifier "user" "42")
                (AnyString "{}")) tt in
  (0%Z = 0%Z ->
   result e = Some (Some (New ErrNotFound)) /\
   log e = [Called (redis.Exists "app:user:42") (0%Z, None)] /\
   final e = tt) /\
  (0%Z <> 0%Z ->
   forall w s2,
     scripted quiet _ (redis.JSONSet "app:user:42" "$" (AnyString "{}")) tt
     = (w, s2) ->
     result e = Some (asError w) /\
     log e = [Called (redis.Exists "app:user:42") (0%Z, None);
              Called (redis.JSONSet "app:user:42" "$" (AnyString "{}")) w] /\
     final e = s2).
Proof.
  apply (Update_by_probe (scripted quiet) tt tt defaultRepository
           (RedisIdentifier "user" "42") (AnyString "{}") "app:user:42" 0%Z).
  - reflexivity.
  - reflexivity.
Defined.

(** X11: when the probe of [Create] answers any count but 1, [Create] sets
    the document at the root path of the rendered key, once, and returns
    the error of that call as it is (nil when the store reports none). *)
Theorem Create_absent_key {St : Type} (h : handler St) (s s1 s2 : St)
  (r : RedisRepository) (identifier : EntityIdentifier) (value : any)
  (key : string) (n : Z) (w : option redis.Error) :
  identifierToKey r identifier = inl key ->
  h _ (redis.Exists key) s = ((n, None), s1) ->
  n <> 1%Z ->
  h _ (redis.JSONSet key "$" value) s1 = (w, s2) ->
  let e := run h (Create r identifier value) s in
  result e = Some (asError w) /\
  log e = [Called (redis.Exists key) (n, None);
           Called (redis.JSONSet key "$" value) w] /\
  final e = s2.
Proof.
  intros Hk Hh Hn Hw. unfold Create. rewrite Hk. cbn [run]. rewrite Hh.
  destruct (Z.eqb_spec n 1) as [|_]; [contradiction|].
  cbn [run result log final]. rewrite Hw. cbn. auto.
Qed.

Lemma Create_absent_key_witness :
  let e := run (scripted quiet)
             (Create defaultRepository (RedisIdentifier "user" "42")
                (AnyString "{}")) tt in
  result e = Some (asError None) /\
  log e = [Called (redis.Exists "app:user:42") (0%Z, None);
           Called (redis.JSONSet "app:user:42" "$" (AnyString "{}")) None] /\
  final e = tt.
Proof.
  apply (Create_absent_key (scripted quiet) tt tt tt defaultRepository
           (RedisIdentifier "user" "42") (AnyString "{}") "app:user:42"
           0%Z None).
  - reflexivity.
  - reflexivity.
  - discriminate.
  - reflexivity.
Defined.

(** X12: [Delete] makes one call, the deletion of the rendered key, and
    goes by the count it answers: [ErrNotFound] on 0, success on any other
    count. *)
Theorem Delete_by_count {St : Type} (h : handler St) (s s1 : St)
  (r : RedisRepository) (identifier : EntityIdentifier)
  (key : string) (n : Z) :
  identifierToKey r identifier = inl key ->
  h _ (redis.Del key) s = ((n, None), s1) ->
  let e := run h (Delete r identifier) s in
  result e = Some (if (n =? 0)%Z then Some (New ErrNotFound) else None) /\
  log e = [Called (redis.Del key) (n, None)] /\
  final e = s1.
Proof.
  intros Hk Hh. unfold Delete. rewrite Hk. cbn [run]. rewrite Hh.
  destruct (n =? 0)%Z; cbn; auto.
Qed.

Lemma Delete_by_count_witness :
  let e := run (scripted quiet)
             (Delete defaultRepository (RedisIdentifier "user" "42")) tt in
  result e = Some (if (0 =? 0)%Z then Some (New ErrNotFound) else None) /\
  log e = [Called (redis.Del "app:user:42") (0%Z, None)] /\
  final e = tt.
Proof.
  apply (Delete_by_count (scripted quiet) tt tt defaultRepository
           (RedisIdentifier "user" "42") "app:user:42" 0%Z).
  - reflexivity.
  - reflexivity.
Defined.

(** X13: [Read] makes one call, the fetch of the root path of the rendered
    key.  When the store answers with a text, the result is what
    [json.Unmarshal] makes of that text, error or not; when it answers
    [redis.Nil], the result is [ErrNotFound] and nothing is unmarshalled. *)
Theorem Read_by_answer {St : Type} (h : handler St) (s s1 : St)
  (r : RedisRepository) (identifier : EntityIdentifier)
  (unmarshal : string -> option error) (key data : string)
  (err : option redis.Error) :
  identifierToKey r identifier = inl key ->
  h _ (redis.JSONGet key "$") s = ((data, err), s1) ->
  let e := run h (Read r identifier unmarshal) s in
  log e = [Called (redis.JSONGet key "$") (data, err)] /\
  final e = s1 /\
  (err = None -> result e = Some (unmarshal data)) /\
  (err = Some redis.Nil -> result e = Some (Some (New ErrNotFound))).
Proof.
  intros Hk Hh. unfold Read. rewrite Hk. cbn [run]. rewrite Hh.
  destruct err as [[|text]|]; cbn; repeat split; intros; congruence.
Qed.

Lemma Read_by_answer_witness :
  let unmarshal := fun text : string =>
                     if String.eqb text "{}" then None
                     else Some (Json "unexpected end of JSON input") in
  let e := run (scripted quiet)
             (Read defaultRepository (RedisIdentifier "user" "42")
                unmarshal) tt in
  log e = [Called (redis.JSONGet "app:user:42" "$") ("{}", None)] /\
  final e = tt /\
  (@None redis.Error = None -> result e = Some (unmarshal "{}")) /\
  (None = Some redis.Nil -> result e = Some (Some (New ErrNotFound))).
Proof.
  intros unmarshal.
  apply (Read_by_answer (scripted quiet) tt tt defaultRepository
           (RedisIdentifier "user" "42") unmarshal "app:user:42" "{}" None).
  - reflexivity.
  - reflexivity.
Defined.

Lemma lockKeyOf_longer (r : RedisRepository) (key : string) :
  String.length (lockKeyOf r key)
  = String.length key + String.length (separator r) + 4.
Proof. unfold lockKeyOf. rewrite !length_append. simpl. lia. Qed.

Lemma lockKeyOf_injective (r : RedisRepository) (k1 k2 : string) :
  lockKeyOf r k1 = lockKeyOf r k2 -> k1 = k2.
Proof.
  unfold lockKeyOf. revert k2.
  induction k1 as [|x k1 IH]; intros k2 H.
  - destruct k2 as [|y k2]; [reflexivity|].
    apply (f_equal String.length) in H.
    simpl in H. rewrite !length_append in H. simpl in H. lia.
  - destruct k2 as [|y k2].
    + apply (f_equal String.length) in H.
      simpl in H. rewrite !length_append in H. simpl in H. lia.
    + simpl in H. injection H as -> H. f_equal. auto.
Qed.

(** X14: [AcquireLock] and [ReleaseLock] work on one and the same key, the
    rendered key followed by the separator and [lock], which is never the
    data key itself and differs for different data keys.  [AcquireLock]
    sets it to 1 with the given expiry if absent and hands back the
    store's flag without error, acquired or not; [ReleaseLock] deletes it
    and returns [ErrNotFound] exactly when the store removed nothing. *)
Theorem lock_operations {St : Type} (h : handler St) (s s1 : St)
  (r : RedisRepository) (identifier : EntityIdentifier) (key : string) :
  identifierToKey r identifier = inl key ->
  lockKeyOf r key <> key /\
  (forall key', lockKeyOf r key' = lockKeyOf r key -> key' = key) /\
  (forall ttl acquired,
      h _ (redis.SetNX (lockKeyOf r key) (AnyInt 1) ttl) s
      = ((acquired, None), s1) ->
      let e := run h (AcquireLock r identifier ttl) s in
      result e = Some (acquired, None) /\
      log e = [Called (redis.SetNX (lockKeyOf r key) (AnyInt 1) ttl)
                 (acquired, None)] /\
      final e = s1) /\
  (forall n,
      h _ (redis.Del (lockKeyOf r key)) s = ((n, None), s1) ->
      let e := run h (ReleaseLock r identifier) s in
      result e = Some (if (n =? 0)%Z then Some (New ErrNotFound) else None) /\
      log e = [Called (redis.Del (lockKeyOf r key)) (n, None)] /\
      final e = s1).
Proof.
  intros Hk. split; [|split; [|split]].
  - intros H. apply (f_equal String.length) in H.
    rewrite lockKeyOf_longer in H. lia.
  - intros key'. apply lockKeyOf_injective.
  - intros ttl acquired Hh. unfold AcquireLock. rewrite Hk.
    cbn [run]. rewrite Hh. cbn. auto.
  - intros n Hh. unfold ReleaseLock. rewrite Hk.
    cbn [run]. rewrite Hh. destruct (n =? 0)%Z; cbn; auto.
Qed.

Lemma lock_operations_witness :
  lockKeyOf defaultRepository "app:user:42" <> "app:user:42" /\
  (forall key',
      lockKeyOf defaultRepository key'
      = lockKeyOf defaultRepository "app:user:42" -> key' = "app:user:42") /\
  (forall ttl acquired,
      scripted quiet _
        (redis.SetNX (lockKeyOf defaultRepository "app:user:42")
           (AnyInt 1) ttl) tt
      = ((acquired, None), tt) ->
      let e := run (scripted quiet)
                 (AcquireLock defaultRepository
                    (RedisIdentifier "user" "42") ttl) tt in
      result e = Some (acquired, None) /\
      log e = [Called (redis.SetNX (lockKeyOf defaultRepository "app:user:42")
                         (AnyInt 1) ttl) (acquired, None)] /\
      final e = tt) /\
  (forall n,
      scripted quiet _
        (redis.Del (lockKeyOf defaultRepository "app:user:42")) tt
      = ((n, None), tt) ->
      let e := run (scripted quiet)
                 (ReleaseLock defaultRepository
                    (RedisIdentifier "user" "42")) tt in
      result e = Some (if (n =? 0)%Z then Some (New ErrNotFound) else None) /\
      log e = [Called (redis.Del (lockKeyOf defaultRepository "app:user:42"))
                 (n, None)] /\
      final e = tt).
Proof.
  apply (lock_operations (scripted quiet) tt tt defaultRepository
           (RedisIdentifier "user" "42") "app:user:42").
  reflexivity.
Defined.

(** X15: every call that [Create], [Read], [Update] or [Delete] makes is
    about one key, the key rendered from the identifier, and that key
    satisfies the key grammar. *)
Theorem crud_calls_use_the_valid_key {St : Type} (h : handler St) (s : St)
  (r : RedisRepository) (op : operation) (en : entry) :
  isCRUD op = true ->
  In en (log (run h (exec r op) s)) ->
  exists identifier key,
    identifierOf op = Some identifier /\
    identifierToKey r identifier = inl key /\
    entryKey en = Some key /\
    ValidKey r key.
Proof.
  intros Hop.
  assert (Hvalid : forall id key,
             identifierToKey r id = inl key -> ValidKey r key).
  { intros id key H. apply validateKey_checks.
    now apply identifierToKey_inl in H. }
  destruct op as [id v | id um | id v | id | | | | | | | ];
    try discriminate; cbn [exec identifierOf];
    unfold Create, Read, Update, Delete;
    destruct (identifierToKey r id) as [key|err] eqn:Hk;
    try (cbn; intros []).
  - cbn [run]. destruct (h _ (redis.Exists key) s) as [[n [e|]] s1]; cbn.
    + intros [<-|[]]. exists id, key. eauto.
    + destruct (n =? 1)%Z; cbn.
      * intros [<-|[]]. exists id, key. eauto.
      * destruct (h _ (redis.JSONSet key "$" v) s1) as [w s2]. cbn.
        intros [<-|[<-|[]]]; exists id, key; eauto.
  - cbn [run]. destruct (h _ (redis.JSONGet key "$") s) as [[d [e|]] s1]; cbn.
    + destruct (redis.isNil e); cbn; intros [<-|[]]; exists id, key; eauto.
    + intros [<-|[]]. exists id, key. eauto.
  - cbn [run]. destruct (h _ (redis.Exists key) s) as [[n [e|]] s1]; cbn.
    + intros [<-|[]]. exists id, key. eauto.
    + destruct (n =? 0)%Z; cbn.
      * intros [<-|[]]. exists id, key. eauto.
      * destruct (h _ (redis.JSONSet key "$" v) s1) as [w s2]. cbn.
        intros [<-|[<-|[]]]; exists id, key; eauto.
  - cbn [run]. destruct (h _ (redis.Del key) s) as [[n [e|]] s1]; cbn.
    + intros [<-|[]]. exists id, key. eauto.
    + destruct (n =? 0)%Z; cbn; intros [<-|[]]; exists id, key; eauto.
Qed.

Lemma crud_calls_use_the_valid_key_witness :
  exists identifier key,
    identifierOf (OpDelete (RedisIdentifier "user" "42")) = Some identifier /\
    identifierToKey defaultRepository identifier = inl key /\
    entryKey (Called (redis.Del "app:user:42") (0%Z, None)) = Some key /\
    ValidKey defaultRepository key.
Proof.
  apply (crud_calls_use_the_valid_key (scripted quiet) tt defaultRepository
           (OpDelete (RedisIdentifier "user" "42"))
           (Called (redis.Del "app:user:42") (0%Z, None))).
  - reflexivity.
  - left. reflexivity.
Defined.

(** X16: whatever the store answers, an operation makes at most two calls
    of which at most one changes the store; [Read], [List], [Search],
    [Ping] and [Close] make none that does; and no operation but [Search]
    stops with a panic. *)
Theorem operation_footprint {St : Type} (h : handler St) (s : St)
  (r : RedisRepository) (op : operation) :
  let e := run h (exec r op) s in
  List.length (log e) <= 2 /\
  List.length (filter isWrite (log e)) <= 1 /\
  (readOnly op = true -> existsb isWrite (log e) = false) /\
  (result e = None ->
   exists query offset limit sortBy sortDir,
     op = OpSearch query offset limit sortBy sortDir).
Proof.
  cbv zeta.
  destruct op as [id v | id um | id v | id | id | q off lim sb sd
                 | id ttl | id | ch msg | | ]; cbn [exec readOnly];
    unfold Create, Read, Update, Delete, List, Search, AcquireLock,
      ReleaseLock, Publish, Ping, Close;
    try (destruct (identifierToKey r id) as [key|err]);
    run_all h;
    cbn; repeat split; try lia; try discriminate; try reflexivity;
    intros; try discriminate; eauto 10.
Qed.

(** X17: when the search command answers without error but not with the
    expected envelope, [Search] decodes nothing: an answer that is not a
    slice, or an empty slice, gives the error "unexpected search result
    format"; a slice whose first element is not an [int64] gives
    "unexpected total results format"; both errors are plain, they match no
    sentinel; and a negative total makes [Search] panic when it sizes the
    result. *)
Theorem Search_malformed_envelope {St : Type} (h : handler St) (s s1 : St)
  (r : RedisRepository) (query : string) (offset limit : Z)
  (sortBy sortDir : string) (res : any) :
  h _ (redis.Do (searchArgs r query offset limit sortBy sortDir)) s
  = ((res, None), s1) ->
  let e := run h (Search r query offset limit sortBy sortDir) s in
  ((forall first rest, res <> AnySlice (first :: rest)) ->
   result e = Some (inr (Errorf "unexpected search result format"))) /\
  (forall first rest,
      res = AnySlice (first :: rest) ->
      (forall n, first <> AnyInt64 n) ->
      result e = Some (inr (Errorf "unexpected total results format"))) /\
  (forall n rest,
      res = AnySlice (AnyInt64 n :: rest) -> (n < 0)%Z ->
      result e = None) /\
  (forall text t, errorsIs (Errorf text) t = false).
Proof.
  intros Hh. cbv zeta. unfold Search.
  fold (searchArgs r query offset limit sortBy sortDir).
  cbn [run]. rewrite Hh. repeat split.
  - intros Hno. destruct res as [n|n|t|[|first rest]|]; try reflexivity.
    elim (Hno first rest). reflexivity.
  - intros first rest -> Hfirst.
    destruct first as [n|n|t|l|]; try reflexivity.
    elim (Hfirst n). reflexivity.
  - intros n rest -> Hn.
    destruct (Z.eqb_spec n 0) as [E|_]; [lia|].
    destruct (Z.ltb_spec n 0) as [_|E]; [reflexivity | lia].
Qed.

Lemma Search_malformed_envelope_witness :
  let h := scripted {| onExists := (0%Z, None); onJSONSet := None;
                       onJSONGet := ("{}", None); onDel := (0%Z, None);
                       onKeys := ([], None);
                       onDo := (AnySlice [AnyInt 2; AnyString "app:user:1"],
                                None);
                       onSetNX := (true, None); onPublish := None;
                       onPing := None; onClose := None |} in
  let res := AnySlice [AnyInt 2; AnyString "app:user:1"] in
  let e := run h (Search defaultRepository "query" 0 10 "name" "ASC") tt in
  ((forall first rest, res <> AnySlice (first :: rest)) ->
   result e = Some (inr (Errorf "unexpected search result format"))) /\
  (forall first rest,
      res = AnySlice (first :: rest) ->
      (forall n, first <> AnyInt64 n) ->
      result e = Some (inr (Errorf "unexpected total results format"))) /\
  (forall n rest,
      res = AnySlice (AnyInt64 n :: rest) -> (n < 0)%Z ->
      result e = None) /\
  (forall text t, errorsIs (Errorf text) t = false).
Proof.
  intros h res.
  apply (Search_malformed_envelope h tt tt defaultRepository
           "query" 0%Z 10%Z "name" "ASC" res).
  reflexivity.
Defined.

(** A total above the largest capacity: the program stops with a panic. *)
Example Search_total_above_capacity :
  result (run (searchStore (envelope 9223372036854775807 []))
            (Search defaultRepository "query" 0 10 "name" "ASC") tt)
  = None /\
  result (run (searchStore (envelope maxSliceCap []))
            (Search defaultRepository "query" 0 10 "name" "ASC") tt)
  = Some (inl []).
Proof. split; reflexivity. Qed.

(** A negative total: the program stops with a panic. *)
Example Search_negative_total :
  let h := scripted {| onExists := (0%Z, None); onJSONSet := None;
                       onJSONGet := ("{}", None); onDel := (0%Z, None);
                       onKeys := ([], None);
                       onDo := (envelope (-1) [], None);
                       onSetNX := (true, None); onPublish := None;
                       onPing := None; onClose := None |} in
  result (run h (Search defaultRepository "query" 0 10 "name" "ASC") tt)
  = None.
Proof. reflexivity. Qed.

Lemma searchLoop_visited (r : RedisRepository) (rest : list any) :
  forall acc,
    searchLoop r rest acc
    = fold_left (appendDecoded r) (visitedKeys rest) acc.
Proof.
  assert (H : forall n rest, List.length rest <= n ->
              forall acc,
                searchLoop r rest acc
                = fold_left (appendDecoded r) (visitedKeys rest) acc).
  { induction n as [|n IH]; intros l Hl acc.
    - destruct l; [reflexivity | simpl in Hl; lia].
    - destruct l as [|x [|y l]]; [reflexivity | |].
      + destruct x; reflexivity.
      + cbn [searchLoop visitedKeys]. rewrite fold_left_app.
        rewrite IH by (simpl in Hl; lia).
        destruct x; reflexivity. }
  intros acc. apply (H (List.length rest)). lia.
Qed.

(** X18: for an envelope with a total of at least 1 and at most the
    largest capacity the result slice can be made with, [Search] decodes
    the strings it finds at every other position after the total, in
    order, and nothing else: an element at such a position that is not a
    string is skipped, the elements in between (the scores) are never
    looked at, and the total does not limit how many identifiers come
    back. *)
Theorem Search_visits_every_other_element {St : Type} (h : handler St)
  (s s1 : St) (r : RedisRepository) (query : string) (offset limit : Z)
  (sortBy sortDir : string) (total : Z) (rest : list any) :
  h _ (redis.Do (searchArgs r query offset limit sortBy sortDir)) s
  = ((AnySlice (AnyInt64 total :: rest), None), s1) ->
  (0 < total <= maxSliceCap)%Z ->
  exists identifiers,
    result (run h (Search r query offset limit sortBy sortDir) s)
    = Some (inl identifiers) /\
    DecodedFrom r (visitedKeys rest) identifiers.
Proof.
  intros Hh [Hpos Hmax]. unfold Search.
  fold (searchArgs r query offset limit sortBy sortDir).
  cbn [run]. rewrite Hh.
  destruct (Z.eqb_spec total 0) as [E|_]; [lia|].
  destruct (Z.ltb_spec total 0) as [E|_]; [lia|].
  destruct (Z.ltb_spec maxSliceCap total) as [E|_]; [lia|].
  cbn [orb run result]. rewrite searchLoop_visited.
  destruct (fold_appendDecoded r (visitedKeys rest) []) as (ids & Hf & H2).
  exists ids. rewrite Hf. auto.
Qed.

Lemma Search_visits_every_other_element_witness :
  let h := scripted {| onExists := (0%Z, None); onJSONSet := None;
                       onJSONGet := ("{}", None); onDel := (0%Z, None);
                       onKeys := ([], None);
                       onDo := (AnySlice [AnyInt64 1; AnyString "app:user:1";
                                          AnyString "app:user:2"; AnyInt 7;
                                          AnyString "1"; AnyString "app:note"],
                                None);
                       onSetNX := (true, None); onPublish := None;
                       onPing := None; onClose := None |} in
  exists identifiers,
    result (run h (Search defaultRepository "query" 0 10 "name" "ASC") tt)
    = Some (inl identifiers) /\
    DecodedFrom defaultRepository
      (visitedKeys [AnyString "app:user:1"; AnyString "app:user:2"; AnyInt 7;
                    AnyString "1"; AnyString "app:note"])
      identifiers.
Proof.
  intros h.
  apply (Search_visits_every_other_element h tt tt defaultRepository
           "query" 0%Z 10%Z "name" "ASC" 1%Z
           [AnyString "app:user:1"; AnyString "app:user:2"; AnyInt 7;
            AnyString "1"; AnyString "app:note"]).
  - reflexivity.
  - unfold maxSliceCap. lia.
Defined.

(** With a total of 1 and a key in a score position, two identifiers come
    back and the key in the score position is not one of them. *)
Example Search_ignores_scores :
  let h := scripted {| onExists := (0%Z, None); onJSONSet := None;
                       onJSONGet := ("{}", None); onDel := (0%Z, None);
                       onKeys := ([], None);
                       onDo := (AnySlice [AnyInt64 1; AnyString "app:user:1";
                                          AnyString "app:user:2"; AnyInt 7;
                                          AnyString "1"; AnyString "app:note"],
                                None);
                       onSetNX := (true, None); onPublish := None;
                       onPing := None; onClose := None |} in
  result (run h (Search defaultRepository "query" 0 10 "name" "ASC") tt)
  = Some (inl [RedisIdentifier "user" "1"; SimpleIdentifier "note"]).
Proof. reflexivity. Qed.

Lemma splitFrom_single_parts_free (c : ascii) (s : string) :
  Forall (fun p => ~ In c (list_ascii_of_string p))
    (strings.splitFrom (String c "") 0 s).
Proof.
  induction s as [|x s IH]; [repeat constructor; auto|].
  cbn [strings.splitFrom].
  destruct (String.prefix (String c "") (String x s)) eqn:E.
  - cbn [String.length Nat.sub]. constructor; [simpl; auto | exact IH].
  - pose proof (splitFrom_not_nil (String c "") 0 s) as Hn.
    destruct (strings.splitFrom (String c "") 0 s) as [|p ps];
      [contradiction|].
    inversion IH as [|? ? Hp Hps]; subst. constructor; [|exact Hps].
    simpl. intros [->|H]; [|contradiction].
    assert (Et : String.prefix (String c "") (String c s) = true)
      by now apply prefix_single.
    congruence.
Qed.

Lemma CharsOk_concat (sep : string) (parts : list string) :
  CharsOk (String.concat sep parts) -> Forall CharsOk parts.
Proof.
  induction parts as [|p ps IH]; [constructor|].
  destruct ps as [|q qs].
  - simpl. intros H. repeat constructor. exact H.
  - rewrite concat_cons by discriminate. intros H.
    apply CharsOk_app in H. destruct H as [Hp H].
    apply CharsOk_app in H. destruct H as [_ H].
    constructor; auto.
Qed.

(** X19: with a one-character separator, every identifier decoded from a
    key is of one of the two supported types, and each of its texts is
    non-empty, free of the separator and made of key characters only. *)
Theorem keyToIdentifier_parts_clean (r : RedisRepository) (c : ascii)
  (k : string) (id : EntityIdentifier) :
  separator r = String c "" ->
  keyToIdentifier r k = inl id ->
  id <> OtherIdentifier /\
  PartsSeparatorFree r id /\
  Forall (fun p => p <> "" /\ CharsOk p) (identifierParts id).
Proof.
  intros Es Hid.
  pose proof (keyToIdentifier_inl_valid r k id Hid) as V.
  destruct (validateKey_parts r k V) as (p0 & p1 & ps & E).
  destruct (keyToIdentifier_valid r k p0 p1 ps V E) as [_ Hid'].
  rewrite Hid in Hid'. injection Hid' as ->.
  apply validateKey_checks in V. destruct V as (_ & HC & _ & _ & HN).
  unfold NoEmptyPart in HN. rewrite E in HN.
  assert (HF : Forall (fun p => ~ In c (list_ascii_of_string p))
                 (p0 :: p1 :: ps)).
  { rewrite <- E, Es. apply splitFrom_single_parts_free. }
  assert (HK : Forall CharsOk (p0 :: p1 :: ps)).
  { apply (CharsOk_concat (String c "")).
    rewrite <- E, Es.
    pose proof (Join_Split_single c k) as J. unfold strings.Join in J.
    now rewrite J. }
  assert (Hfree : forall p, ~ In c (list_ascii_of_string p) ->
                            SeparatorFree r p).
  { intros p H. unfold SeparatorFree. now rewrite Es, Contains_single. }
  inversion HN as [|? ? _ HN1]; subst.
  inversion HN1 as [|? ? N1 HN2]; subst.
  inversion HF as [|? ? _ HF1]; subst.
  inversion HF1 as [|? ? F1 HF2]; subst.
  inversion HK as [|? ? _ HK1]; subst.
  inversion HK1 as [|? ? K1 HK2]; subst.
  destruct ps as [|p2 more].
  - split; [discriminate|]. split; [simpl; auto|].
    simpl. repeat constructor; auto.
  - inversion HN2; inversion HF2; inversion HK2; subst.
    split; [discriminate|]. split; [simpl; auto|].
    simpl. repeat constructor; auto.
Qed.

Lemma keyToIdentifier_parts_clean_witness :
  RedisIdentifier "user" "42" <> OtherIdentifier /\
  PartsSeparatorFree defaultRepository (RedisIdentifier "user" "42") /\
  Forall (fun p => p <> "" /\ CharsOk p)
    (identifierParts (RedisIdentifier "user" "42")).
Proof.
  apply (keyToIdentifier_parts_clean defaultRepository ":"%char
           "app:user:42:extra" (RedisIdentifier "user" "42")).
  - reflexivity.
  - reflexivity.
Defined.

(** X20: [NewRedisRepository] refuses a configuration of another type and
    otherwise always builds a repository; the configured prefix and
    separator are kept when they are set and replaced by [app] and [:]
    when they are empty, so that neither field of a repository is ever
    empty. *)
Theorem NewRedisRepository_fields (config : Config) :
  match config with
  | ConfigOther =>
      NewRedisRepository config
      = inr (Errorf "invalid config type for Redis repository")
  | ConfigRedis c =>
      exists r,
        NewRedisRepository config = inl r /\
        prefix r <> "" /\ separator r <> "" /\
        (KeyPrefix c <> "" -> prefix r = KeyPrefix c) /\
        (KeyPrefix c = "" -> prefix r = "app") /\
        (KeySeparator c <> "" -> separator r = KeySeparator c) /\
        (KeySeparator c = "" -> separator r = ":")
  end.
Proof.
  destruct config as [c|]; [|reflexivity].
  eexists. split; [reflexivity|]. simpl.
  destruct (String.eqb_spec (KeyPrefix c) "") as [Ep|Np];
    destruct (String.eqb_spec (KeySeparator c) "") as [Es|Ns];
    repeat split; intros; try congruence; try discriminate.
Qed.

Lemma Split_Join_single (c : ascii) (parts : list string) :
  parts <> [] ->
  Forall (fun p => ~ In c (list_ascii_of_string p)) parts ->
  strings.Split (strings.Join parts (String c "")) (String c "") = parts.
Proof.
  unfold strings.Split, strings.Join.
  induction parts as [|p ps IH]; [congruence|].
  intros _ HF. inversion HF as [|? ? Hp Hps]; subst.
  destruct ps as [|q qs].
  - simpl. now apply splitFrom_single_free.
  - rewrite concat_cons by discriminate.
    change (p ++ String c "" ++ String.concat (String c "") (q :: qs))
      with (p ++ String c (String.concat (String c "") (q :: qs))).
    rewrite splitFrom_single_app, IH by (auto; discriminate).
    now rewrite splitFrom_single_free.
Qed.

(** X21: [createKey] and [parseKey] undo each other, for any number of
    parts.  With a one-character separator that the prefix does not
    contain: the parts of a key that [createKey] built from separator-free
    parts are given back by [parseKey]; and any key that passes validation
    is built again by [createKey] from the parts [parseKey] gives. *)
Theorem createKey_parseKey_inverse (r : RedisRepository) (c : ascii) :
  separator r = String c "" ->
  SeparatorFree r (prefix r) ->
  (forall parts key,
      Forall (SeparatorFree r) parts ->
      createKey r parts = inl key ->
      parseKey r key = inl parts) /\
  (forall key,
      validateKey r key = None ->
      exists parts,
        parseKey r key = inl parts /\ createKey r parts = inl key).
Proof.
  intros Es Hp.
  assert (Hfree : forall p, SeparatorFree r p ->
                            ~ In c (list_ascii_of_string p)).
  { intros p H. unfold SeparatorFree in H. now rewrite Es, Contains_single in H. }
  split.
  - intros parts key HF Hk.
    apply createKey_inl in Hk. destruct Hk as [-> V].
    unfold parseKey. rewrite V. rewrite Es.
    rewrite Split_Join_single; [reflexivity | discriminate |].
    constructor; [now apply Hfree|].
    apply Forall_forall. intros p Hin. apply Hfree.
    rewrite Forall_forall in HF. auto.
  - intros key V.
    destruct (validateKey_parts r key V) as (p0 & p1 & ps & E).
    destruct (valid_key_first_part r c key p0 (p1 :: ps) Es Hp V E)
      as [-> Hk].
    exists (p1 :: ps). split.
    + unfold parseKey. now rewrite V, E.
    + unfold createKey. now rewrite <- Hk, V.
Qed.

Lemma createKey_parseKey_inverse_witness :
  (forall parts key,
      Forall (SeparatorFree defaultRepository) parts ->
      createKey defaultRepository parts = inl key ->
      parseKey defaultRepository key = inl parts) /\
  (forall key,
      validateKey defaultRepository key = None ->
      exists parts,
        parseKey defaultRepository key = inl parts /\
        createKey defaultRepository parts = inl key).
Proof.
  apply (createKey_parseKey_inverse defaultRepository ":"%char).
  - reflexivity.
  - apply SeparatorFree_default. simpl. intuition discriminate.
Defined.

Example createKey_four_parts :
  createKey defaultRepository ["org"; "team"; "user"; "42"]
  = inl "app:org:team:user:42" /\
  parseKey defaultRepository "app:org:team:user:42"
  = inl ["org"; "team"; "user"; "42"].
Proof. split; reflexivity. Qed.

Lemma entityPrefix_no_colon (r : RedisRepository) (ep : string) :
  validateEntityPrefix r ep = None ->
  ~ In ":"%char (list_ascii_of_string ep).
Proof.
  unfold validateEntityPrefix, entityPrefixRegex.
  rewrite MatchString_Cat_Class.
  destruct ep as [|x ep]; [simpl; auto|].
  rewrite MatchString_Star_Class.
  destruct (inClass entityPrefixHead x) eqn:Eh; [|discriminate].
  destruct (forallb (inClass entityPrefixTail) (list_ascii_of_string ep))
    eqn:Et; [|discriminate].
  intros _ [->|H].
  - discriminate.
  - rewrite forallb_forall in Et. apply Et in H. discriminate.
Qed.

(** X22: the text [String()] gives for composite identifiers tells them
    apart: two composite identifiers whose entity prefixes pass the
    entity-prefix grammar have the same text only when they have the same
    entity prefix and the same id, colons in the ids notwithstanding. *)
Theorem RedisIdentifier_String_injective (r : RedisRepository)
  (ep1 i1 ep2 i2 : string) :
  validateEntityPrefix r ep1 = None ->
  validateEntityPrefix r ep2 = None ->
  RedisIdentifier_String ep1 i1 = RedisIdentifier_String ep2 i2 ->
  RedisIdentifier ep1 i1 = RedisIdentifier ep2 i2.
Proof.
  intros H1 H2 E. unfold RedisIdentifier_String in E.
  apply entityPrefix_no_colon in H1. apply entityPrefix_no_colon in H2.
  destruct (first_separator_unique ":"%char ep1 i1 ep2 i2 H1 H2 E)
    as [-> ->].
  reflexivity.
Qed.

Lemma RedisIdentifier_String_injective_witness :
  RedisIdentifier "user" "a:b" = RedisIdentifier "user" "a:b".
Proof.
  apply (RedisIdentifier_String_injective defaultRepository
           "user" "a:b" "user" "a:b").
  - reflexivity.
  - reflexivity.
  - reflexivity.
Defined.

Lemma NewRedisRepository_fields_witness :
  exists r,
    NewRedisRepository (ConfigRedis nestedPrefixConfig) = inl r /\
    prefix r <> "" /\ separator r <> "" /\
    (KeyPrefix nestedPrefixConfig <> "" ->
     prefix r = KeyPrefix nestedPrefixConfig) /\
    (KeyPrefix nestedPrefixConfig = "" -> prefix r = "app") /\
    (KeySeparator nestedPrefixConfig <> "" ->
     separator r = KeySeparator nestedPrefixConfig) /\
    (KeySeparator nestedPrefixConfig = "" -> separator r = ":").
Proof.
  exact (NewRedisRepository_fields (ConfigRedis nestedPrefixConfig)).
Defined.
